(** * load_offers.py: offer extraction and first-year cost

    A shallow embedding of [src/load_offers.py] (classes [IntProp] and
    [Offer], the property [Offer.year_cost] and the functions [parse_page]
    and [write_xslx]) together with the properties its specification
    states about them and further properties of the code.

    Python strings are sequences of Unicode code points; they are modelled
    as lists of code points.  The character tables of the interpreter
    (lower-casing, decimal digits, alphanumerics, white space) are a
    parameter of the development, fixed on the Latin-1 range where the
    program's own literals live.

    Integers are unbounded ([Z]); floats are binary64, computed with the
    library's [SpecFloat].  [int] of a string follows the interpreter's
    grammar; the limit some versions put on the number of digits is not
    modelled.  Printing appends a line to an output list.  The markup
    library is outside the program: an offer element is given by what the
    selectors applied to it return.  So is the spreadsheet library: a
    worksheet is given by what the program does to it. *)

From Stdlib Require Import ZArith NArith List Bool Lia.
From Stdlib Require String Ascii DecimalString.
From Stdlib Require Import Floats.SpecFloat.
Import ListNotations String.StringSyntax.

Set Implicit Arguments.

(** ** Characters and strings *)

Definition char := N.
Definition pystr := list char.

Definition char_eqb (a b : char) : bool := N.eqb a b.

Fixpoint str_eqb (a b : pystr) : bool :=
  match a, b with
  | [], [] => true
  | x :: a', y :: b' => char_eqb x y && str_eqb a' b'
  | _, _ => false
  end.

(** String literals of the source are written as Rocq strings, whose bytes
    are the UTF-8 encoding of the text; [lit] decodes them to code points. *)
Fixpoint utf8_decode (bs : list N) : pystr :=
  match bs with
  | [] => []
  | b1 :: t1 =>
      if (b1 <? 128)%N then b1 :: utf8_decode t1
      else
        match t1 with
        | [] => [b1]
        | b2 :: t2 =>
            if (b1 <? 224)%N
            then ((b1 - 192) * 64 + (b2 - 128))%N :: utf8_decode t2
            else
              match t2 with
              | [] => [b1; b2]
              | b3 :: t3 =>
                  if (b1 <? 240)%N
                  then ((b1 - 224) * 4096 + (b2 - 128) * 64 + (b3 - 128))%N
                         :: utf8_decode t3
                  else
                    match t3 with
                    | [] => [b1; b2; b3]
                    | b4 :: t4 =>
                        ((b1 - 240) * 262144 + (b2 - 128) * 4096
                         + (b3 - 128) * 64 + (b4 - 128))%N :: utf8_decode t4
                    end
              end
        end
  end.

Definition lit (s : String.string) : pystr :=
  utf8_decode (map Ascii.N_of_ascii (String.list_ascii_of_string s)).

Arguments lit s%_string_scope.

(** [needle in hay] for strings. *)
Fixpoint starts_with (p s : pystr) : bool :=
  match p, s with
  | [], _ => true
  | x :: p', y :: s' => char_eqb x y && starts_with p' s'
  | _ :: _, [] => false
  end.

Fixpoint str_in (needle hay : pystr) : bool :=
  starts_with needle hay
  || match hay with
     | [] => false
     | _ :: hay' => str_in needle hay'
     end.

(** ** The interpreter's character tables *)

Module Latin1.

Local Open Scope N_scope.

Definition in_range (lo hi c : char) : bool := (lo <=? c) && (c <=? hi).

(** Simple lower-case mapping. *)
Definition lower (c : char) : char :=
  if in_range 65 90 c || (in_range 192 222 c && negb (c =? 215))
  then c + 32 else c.

(** Decimal digit value (general category Nd). *)
Definition decimal (c : char) : option Z :=
  if in_range 48 57 c then Some (Z.of_N c - 48)%Z else None.

(** [str.isalnum] of a single character: letters, decimal digits, and the
    digit-like and numeric signs of the range. *)
Definition isalnum (c : char) : bool :=
  in_range 48 57 c || in_range 65 90 c || in_range 97 122 c
  || (c =? 170) || (c =? 181) || (c =? 186)
  || in_range 192 214 c || in_range 216 246 c || in_range 248 255 c
  || (c =? 178) || (c =? 179) || (c =? 185) || in_range 188 190 c.

(** [str.isspace] of a single character. *)
Definition isspace (c : char) : bool :=
  in_range 9 13 c || in_range 28 32 c || (c =? 133) || (c =? 160).

End Latin1.

Arguments Latin1.in_range (lo hi c)%_N_scope.

Class UnicodeDB := {
  u_lower : char -> char;
  u_decimal : char -> option Z;
  u_isalnum : char -> bool;
  u_isspace : char -> bool;
  u_lower_latin1 : forall c, (c < 256)%N -> u_lower c = Latin1.lower c;
  u_decimal_latin1 : forall c, (c < 256)%N -> u_decimal c = Latin1.decimal c;
  u_isalnum_latin1 : forall c, (c < 256)%N -> u_isalnum c = Latin1.isalnum c;
  u_isspace_latin1 : forall c, (c < 256)%N -> u_isspace c = Latin1.isspace c;
  u_decimal_range : forall c d, u_decimal c = Some d -> (0 <= d <= 9)%Z;
  u_decimal_uncased : forall c d, u_decimal c = Some d -> u_lower c = c;
  u_decimal_not_space :
    forall c d, u_decimal c = Some d -> u_isspace c = false;
}.

(** The tables restricted to Latin-1: outside the range no character is a
    digit, alphanumeric or white space, and none has a lower-case form.
    Exact for Latin-1 text; used to evaluate the program on examples. *)
Module Latin1Only.

Definition lower (c : char) : char :=
  if (c <? 256)%N then Latin1.lower c else c.
Definition decimal (c : char) : option Z :=
  if (c <? 256)%N then Latin1.decimal c else None.
Definition isalnum (c : char) : bool := (c <? 256)%N && Latin1.isalnum c.
Definition isspace (c : char) : bool := (c <? 256)%N && Latin1.isspace c.

Lemma lower_latin1 c : (c < 256)%N -> lower c = Latin1.lower c.
Proof. intros H. unfold lower. apply N.ltb_lt in H. now rewrite H. Qed.

Lemma decimal_latin1 c : (c < 256)%N -> decimal c = Latin1.decimal c.
Proof. intros H. unfold decimal. apply N.ltb_lt in H. now rewrite H. Qed.

Lemma isalnum_latin1 c : (c < 256)%N -> isalnum c = Latin1.isalnum c.
Proof. intros H. unfold isalnum. apply N.ltb_lt in H. now rewrite H. Qed.

Lemma isspace_latin1 c : (c < 256)%N -> isspace c = Latin1.isspace c.
Proof. intros H. unfold isspace. apply N.ltb_lt in H. now rewrite H. Qed.

Lemma decimal_digit c d :
  decimal c = Some d -> (48 <= c <= 57)%N /\ d = (Z.of_N c - 48)%Z.
Proof.
  unfold decimal. destruct (c <? 256)%N; [|discriminate].
  unfold Latin1.decimal, Latin1.in_range.
  destruct ((48 <=? c)%N && (c <=? 57)%N) eqn:E; [|discriminate].
  intros [= <-]. apply andb_prop in E as [E1 E2].
  apply N.leb_le in E1, E2. split; [lia|reflexivity].
Qed.

Lemma decimal_range c d : decimal c = Some d -> (0 <= d <= 9)%Z.
Proof. intros H. apply decimal_digit in H. lia. Qed.

Lemma decimal_uncased c d : decimal c = Some d -> lower c = c.
Proof.
  intros H. apply decimal_digit in H as [H _].
  unfold lower, Latin1.lower, Latin1.in_range.
  destruct (c <? 256)%N; [|reflexivity].
  replace (c <=? 90)%N with true by (symmetry; apply N.leb_le; lia).
  replace (65 <=? c)%N with false by (symmetry; apply N.leb_gt; lia).
  replace (192 <=? c)%N with false by (symmetry; apply N.leb_gt; lia).
  reflexivity.
Qed.

Lemma decimal_not_space c d : decimal c = Some d -> isspace c = false.
Proof.
  intros H. apply decimal_digit in H as [H _].
  unfold isspace, Latin1.isspace, Latin1.in_range.
  replace (c <=? 13)%N with false by (symmetry; apply N.leb_gt; lia).
  replace (c <=? 32)%N with false by (symmetry; apply N.leb_gt; lia).
  replace (c =? 133)%N with false by (symmetry; apply N.eqb_neq; lia).
  replace (c =? 160)%N with false by (symmetry; apply N.eqb_neq; lia).
  now rewrite !andb_false_r.
Qed.

End Latin1Only.

#[export] Instance latin1_db : UnicodeDB := {|
  u_lower := Latin1Only.lower;
  u_decimal := Latin1Only.decimal;
  u_isalnum := Latin1Only.isalnum;
  u_isspace := Latin1Only.isspace;
  u_lower_latin1 := Latin1Only.lower_latin1;
  u_decimal_latin1 := Latin1Only.decimal_latin1;
  u_isalnum_latin1 := Latin1Only.isalnum_latin1;
  u_isspace_latin1 := Latin1Only.isspace_latin1;
  u_decimal_range := Latin1Only.decimal_range;
  u_decimal_uncased := Latin1Only.decimal_uncased;
  u_decimal_not_space := Latin1Only.decimal_not_space;
|}.

(** ** Values, exceptions and results *)

(** The objects the program handles: [None], integers, floats (binary64)
    and strings. *)
Inductive pyval :=
| VNone
| VInt (z : Z)
| VFloat (f : spec_float)
| VStr (s : pystr).

(** The operands and results of the arithmetic in [year_cost]: what an
    [IntProp] yields ([None] or an integer), integer locals and floats. *)
Inductive number :=
| NNone
| NInt (z : Z)
| NFloat (f : spec_float).

(** The names of the stored fields of an [Offer]. *)
Inductive field :=
| F_name | F_banner | F_isp | F_campaign | F_bind_time | F_leave_time
| F_list_price | F_speed_up | F_speed_down | F_start_cost.

(** Exceptions.  The first group are the interpreter's own, the only ones
    the source can raise (it defines no exception class and has no [raise]
    of its own besides a re-raise).  The last two are the error classes of
    the specification's taxonomy; no code path constructs them. *)
Inductive exn :=
| TypeError
| ValueError_int (raw : pyval)          (* invalid literal for int() *)
| ValueError_unpack (expected got : nat) (* tuple unpacking *)
| OverflowError
| IndexError
| KeyError (key : pystr)
| AttributeError
| FieldExtractionError (f : field)
| MalformedFieldError (f : field) (raw : pyval).

Inductive result (A : Type) :=
| Ok (a : A)
| Raise (e : exn).
Arguments Ok {A} a.
Arguments Raise {A} e.

Definition bind {A B} (r : result A) (k : A -> result B) : result B :=
  match r with
  | Ok a => k a
  | Raise e => Raise e
  end.

Declare Scope py_scope.
Delimit Scope py_scope with py.
Notation "x <- c ;; k" := (bind c (fun x => k))
  (at level 61, c at next level, right associativity) : py_scope.

(** ** Floating point (binary64) *)

Module Float.

Definition prec : Z := 53.
Definition emax : Z := 1024.

Definition mul := SFmul prec emax.
Definition add := SFadd prec emax.
Definition sub := SFsub prec emax.

(** Conversion of an integer, rounding to nearest even; an integer too
    large for a float raises [OverflowError]. *)
Definition of_int (z : Z) : result spec_float :=
  match binary_normalize prec emax z 0 false with
  | S754_infinity _ => Raise OverflowError
  | f => Ok f
  end.

(** The literal [0.5]. *)
Definition half : spec_float := S754_finite false 4503599627370496 (-53).

(** Truncation toward zero, as [int(x)] of a float does. *)
Definition trunc (f : spec_float) : result Z :=
  match f with
  | S754_zero _ => Ok 0%Z
  | S754_infinity _ => Raise OverflowError
  | S754_nan => Raise (ValueError_int (VFloat f))
  | S754_finite s m e =>
      let a := if (0 <=? e)%Z then (Zpos m * 2 ^ e)%Z
               else (Zpos m / 2 ^ (- e))%Z in
      Ok (if s then (- a)%Z else a)
  end.

Definition eqb (x y : spec_float) : bool :=
  match x, y with
  | S754_zero a, S754_zero b => Bool.eqb a b
  | S754_infinity a, S754_infinity b => Bool.eqb a b
  | S754_nan, S754_nan => true
  | S754_finite a m e, S754_finite b m' e' =>
      Bool.eqb a b && Pos.eqb m m' && Z.eqb e e'
  | _, _ => false
  end.

End Float.

(** ** Arithmetic

    [*], [+] and [-] on numbers: integer arithmetic is exact, a float
    operand makes the other one a float first, and [None] is a
    [TypeError]. *)
Definition py_mul (a b : number) : result number :=
  match a, b with
  | NInt x, NInt y => Ok (NInt (x * y))
  | NInt x, NFloat g => (f <- Float.of_int x ;; Ok (NFloat (Float.mul f g)))%py
  | NFloat f, NInt y => (g <- Float.of_int y ;; Ok (NFloat (Float.mul f g)))%py
  | NFloat f, NFloat g => Ok (NFloat (Float.mul f g))
  | _, _ => Raise TypeError
  end.

Definition py_add (a b : number) : result number :=
  match a, b with
  | NInt x, NInt y => Ok (NInt (x + y))
  | NInt x, NFloat g => (f <- Float.of_int x ;; Ok (NFloat (Float.add f g)))%py
  | NFloat f, NInt y => (g <- Float.of_int y ;; Ok (NFloat (Float.add f g)))%py
  | NFloat f, NFloat g => Ok (NFloat (Float.add f g))
  | _, _ => Raise TypeError
  end.

Definition py_sub (a b : number) : result number :=
  match a, b with
  | NInt x, NInt y => Ok (NInt (x - y))
  | NInt x, NFloat g => (f <- Float.of_int x ;; Ok (NFloat (Float.sub f g)))%py
  | NFloat f, NInt y => (g <- Float.of_int y ;; Ok (NFloat (Float.sub f g)))%py
  | NFloat f, NFloat g => Ok (NFloat (Float.sub f g))
  | _, _ => Raise TypeError
  end.

(** ** Built-in string operations *)

Fixpoint drop_while (p : char -> bool) (s : pystr) : pystr :=
  match s with
  | [] => []
  | c :: s' => if p c then drop_while p s' else s
  end.

(** [s.split(sep)] for a one-character separator: never empty. *)
Fixpoint split_on (sep : char) (s : pystr) : list pystr :=
  match s with
  | [] => [[]]
  | c :: s' =>
      if char_eqb c sep then [] :: split_on sep s'
      else match split_on sep s' with
           | h :: t => (c :: h) :: t
           | [] => [[c]]
           end
  end.

(** [s.split(sep, maxsplit=1)]. *)
Fixpoint split_once (sep : char) (s : pystr) : list pystr :=
  match s with
  | [] => [[]]
  | c :: s' =>
      if char_eqb c sep then [[]; s']
      else match split_once sep s' with
           | h :: t => (c :: h) :: t
           | [] => [[c]]
           end
  end.

(** [seq[i]]. *)
Definition index {A} (l : list A) (i : nat) : result A :=
  match nth_error l i with
  | Some a => Ok a
  | None => Raise IndexError
  end.

(** [d[key]] on the attributes of a tag. *)
Fixpoint getitem (d : list (pystr * pystr)) (key : pystr) : result pystr :=
  match d with
  | [] => Raise (KeyError key)
  | (k, v) :: d' => if str_eqb k key then Ok v else getitem d' key
  end.

(** [x in seq] for a list of strings. *)
Definition list_in (x : pystr) (l : list pystr) : bool :=
  existsb (str_eqb x) l.

(** [str(n)] of an integer. *)
Definition str_of_Z (z : Z) : pystr :=
  map Ascii.N_of_ascii
      (String.list_ascii_of_string
         (DecimalString.NilZero.string_of_int (Z.to_int z))).

Section Builtins.

Context {db : UnicodeDB}.

(** [s.strip()]. *)
Definition strip (s : pystr) : pystr :=
  rev (drop_while u_isspace (rev (drop_while u_isspace s))).

(** [s.split()]: the maximal runs of characters that are not white space.
    [cur] is the current run, reversed. *)
Fixpoint words (cur : pystr) (s : pystr) : list pystr :=
  match s with
  | [] => match cur with [] => [] | _ => [rev cur] end
  | c :: s' =>
      if u_isspace c
      then match cur with
           | [] => words [] s'
           | _ => rev cur :: words [] s'
           end
      else words (c :: cur) s'
  end.

Definition split_ws (s : pystr) : list pystr := words [] s.

(** *** [int(x)]

    For a string: every character from 127 on is first replaced by a
    space (white space), its ASCII digit (decimal digits) or ['?'];
    then ASCII white space is skipped, an optional sign is read, and the
    digits follow, single underscores allowed between them; trailing
    ASCII white space is skipped and nothing may remain. *)

Definition ascii_isspace (c : char) : bool :=
  (c =? 32)%N || Latin1.in_range 9 13 c.

Definition to_ascii (c : char) : char :=
  if (c <? 127)%N then c
  else if u_isspace c then 32%N
  else match u_decimal c with
       | Some d => (48 + Z.to_N d)%N
       | None => 63%N
       end.

Definition digit_val (c : char) : option Z :=
  if Latin1.in_range 48 57 c then Some (Z.of_N c - 48)%Z else None.

Fixpoint scan_digits (acc : Z) (prev_us : bool) (s : pystr)
  : option (Z * pystr) :=
  match s with
  | [] => if prev_us then None else Some (acc, [])
  | c :: s' =>
      match digit_val c with
      | Some d => scan_digits (acc * 10 + d) false s'
      | None =>
          if (c =? 95)%N
          then if prev_us then None else scan_digits acc true s'
          else if prev_us then None else Some (acc, s)
      end
  end.

Definition int_of_str (s : pystr) : option Z :=
  let a := drop_while ascii_isspace (map to_ascii s) in
  let '(neg, a) :=
    match a with
    | c :: a' =>
        if (c =? 43)%N then (false, a')
        else if (c =? 45)%N then (true, a')
        else (false, a)
    | [] => (false, [])
    end in
  match a with
  | [] => None
  | c :: _ =>
      match digit_val c with
      | None => None
      | Some _ =>
          match scan_digits 0 false a with
          | None => None
          | Some (v, rest) =>
              match drop_while ascii_isspace rest with
              | [] => Some (if neg then (- v)%Z else v)
              | _ :: _ => None
              end
          end
      end
  end.

Definition py_int (v : pyval) : result Z :=
  match v with
  | VNone => Raise TypeError
  | VInt z => Ok z
  | VFloat f => Float.trunc f
  | VStr s =>
      match int_of_str s with
      | Some z => Ok z
      | None => Raise (ValueError_int v)
      end
  end.

(** [str(x)] for what an [IntProp] yields. *)
Definition py_str_of_int_opt (x : option Z) : pystr :=
  match x with
  | None => lit "None"
  | Some z => str_of_Z z
  end.

End Builtins.

(** ** Regular expressions

    The fragment of [re] the program uses, with the backtracking semantics
    of the module: alternatives are tried left to right, [?] and [+] are
    greedy, and [search] returns the match at the leftmost position where
    one exists.  Under [re.IGNORECASE] a cased literal is compiled to a
    comparison of the lower-cased input character with the lower-case
    literal ([LitI]); an uncased literal is compared as it is ([Lit]). *)

Inductive regex :=
| Lit (c : char)
| LitI (c : char)
| Digit                       (* \d *)
| OneOf (cs : list char)      (* [...] *)
| WordB                       (* \b *)
| Seq (r1 r2 : regex)
| Alt (r1 r2 : regex)
| Opt (r : regex)             (* r? *)
| Plus (r : regex)            (* r+ *)
| Group (n : nat) (r : regex).

(** Matcher state: the character before the current position, the rest of
    the input, the number of characters consumed since the start of the
    scan, and the groups captured so far. *)
Record mstate := {
  ms_prev : option char;
  ms_rest : pystr;
  ms_pos : nat;
  ms_groups : list (nat * pystr);
}.

Definition set_group (n : nat) (s : pystr) (st : mstate) : mstate :=
  {| ms_prev := ms_prev st; ms_rest := ms_rest st; ms_pos := ms_pos st;
     ms_groups := (n, s) :: ms_groups st |}.

Fixpoint lookup_group (n : nat) (gs : list (nat * pystr)) : option pystr :=
  match gs with
  | [] => None
  | (k, s) :: gs' => if Nat.eqb k n then Some s else lookup_group n gs'
  end.

Section Regex.

Context {db : UnicodeDB}.

(** [\w]: alphanumeric or underscore. *)
Definition is_word (c : char) : bool := u_isalnum c || (c =? 95)%N.

Definition is_word_opt (c : option char) : bool :=
  match c with
  | Some c => is_word c
  | None => false
  end.

Definition at_boundary (st : mstate) : bool :=
  xorb (is_word_opt (ms_prev st)) (is_word_opt (hd_error (ms_rest st))).

Definition one_char (p : char -> bool) (st : mstate)
           (k : mstate -> option mstate) : option mstate :=
  match ms_rest st with
  | [] => None
  | c :: rest =>
      if p c
      then k {| ms_prev := Some c; ms_rest := rest;
                ms_pos := S (ms_pos st); ms_groups := ms_groups st |}
      else None
  end.

Definition is_digit (c : char) : bool :=
  match u_decimal c with
  | Some _ => true
  | None => false
  end.

Definition orelse (a b : option mstate) : option mstate :=
  match a with
  | Some x => Some x
  | None => b
  end.

Fixpoint rmatch (r : regex) (st : mstate) (k : mstate -> option mstate)
         {struct r} : option mstate :=
  match r with
  | Lit c => one_char (fun x => char_eqb x c) st k
  | LitI c => one_char (fun x => char_eqb (u_lower x) c) st k
  | Digit => one_char is_digit st k
  | OneOf cs => one_char (fun x => existsb (char_eqb x) cs) st k
  | WordB => if at_boundary st then k st else None
  | Seq a b => rmatch a st (fun st' => rmatch b st' k)
  | Alt a b => orelse (rmatch a st k) (rmatch b st k)
  | Opt a => orelse (rmatch a st k) (k st)
  | Plus a =>
      (fix loop (fuel : nat) (st0 : mstate) {struct fuel} : option mstate :=
         rmatch a st0
           (fun st1 =>
              match fuel with
              | O => k st1
              | S fuel' =>
                  if Nat.eqb (ms_pos st1) (ms_pos st0) then k st1
                  else orelse (loop fuel' st1) (k st1)
              end))
        (length (ms_rest st)) st
  | Group n a =>
      rmatch a st
        (fun st' =>
           k (set_group n (firstn (ms_pos st' - ms_pos st) (ms_rest st)) st'))
  end.

Definition match_here (r : regex) (prev : option char) (s : pystr)
  : option mstate :=
  rmatch r {| ms_prev := prev; ms_rest := s; ms_pos := 0; ms_groups := [] |}
         (fun st => Some (set_group 0 (firstn (ms_pos st) s) st)).

Fixpoint search_from (r : regex) (prev : option char) (s : pystr)
  : option mstate :=
  match match_here r prev s with
  | Some m => Some m
  | None =>
      match s with
      | [] => None
      | c :: s' => search_from r (Some c) s'
      end
  end.

(** [re.search(r, s)]; [None] when there is no match. *)
Definition re_search (r : regex) (s : pystr) : option mstate :=
  search_from r None s.

(** [m.group(n)] of a group that took part in the match. *)
Definition group (n : nat) (m : mstate) : pystr :=
  match lookup_group n (ms_groups m) with
  | Some s => s
  | None => []
  end.

End Regex.

(** Sequencing of a list of regexes, and a word as literals. *)
Fixpoint seq_of (rs : list regex) : regex :=
  match rs with
  | [] => Opt (OneOf [])
  | [r] => r
  | r :: rs' => Seq r (seq_of rs')
  end.

Definition wordI (s : pystr) : regex := seq_of (map LitI s).

(** [r"\b(\d\d?|tre) ?mån"] with [re.IGNORECASE]. *)
Definition months_re : regex :=
  Seq WordB
      (Seq (Group 1 (Alt (Seq Digit (Opt Digit)) (wordI (lit "tre"))))
           (Seq (Opt (Lit 32%N)) (wordI (lit "mån")))).

(** [r"(\d+) ?kr"] with [re.IGNORECASE]. *)
Definition reduced_re : regex :=
  Seq (Group 1 (Plus Digit)) (Seq (Opt (Lit 32%N)) (wordI (lit "kr"))).

(** [r"(\d+)[_/](\d+)"]. *)
Definition speed_re : regex :=
  Seq (Group 1 (Plus Digit)) (Seq (OneOf [95; 47]%N) (Group 2 (Plus Digit))).

(** [r"\d+"]. *)
Definition digits_re : regex := Plus Digit.

(** ** [class Offer] *)

(** The six attributes set in [__init__] and the four [IntProp]
    descriptors, whose per-instance dictionary yields [None] for an
    instance that was never assigned. *)
Record Offer := {
  name : option pystr;
  banner : option pystr;
  isp : option pystr;
  campaign : option pystr;
  bind_time : option pystr;
  leave_time : option pystr;
  list_price : option Z;
  speed_up : option Z;
  speed_down : option Z;
  start_cost : option Z;
}.

(** [Offer()]. *)
Definition Offer_init : Offer :=
  {| name := None; banner := None; isp := None; campaign := None;
     bind_time := None; leave_time := None;
     list_price := None; speed_up := None; speed_down := None;
     start_cost := None |}.

Definition set_name (v : pystr) (o : Offer) : Offer :=
  {| name := Some v; banner := banner o; isp := isp o; campaign := campaign o;
     bind_time := bind_time o; leave_time := leave_time o;
     list_price := list_price o; speed_up := speed_up o;
     speed_down := speed_down o; start_cost := start_cost o |}.

Definition set_banner (v : pystr) (o : Offer) : Offer :=
  {| name := name o; banner := Some v; isp := isp o; campaign := campaign o;
     bind_time := bind_time o; leave_time := leave_time o;
     list_price := list_price o; speed_up := speed_up o;
     speed_down := speed_down o; start_cost := start_cost o |}.

Definition set_isp (v : pystr) (o : Offer) : Offer :=
  {| name := name o; banner := banner o; isp := Some v; campaign := campaign o;
     bind_time := bind_time o; leave_time := leave_time o;
     list_price := list_price o; speed_up := speed_up o;
     speed_down := speed_down o; start_cost := start_cost o |}.

Definition set_campaign (v : pystr) (o : Offer) : Offer :=
  {| name := name o; banner := banner o; isp := isp o; campaign := Some v;
     bind_time := bind_time o; leave_time := leave_time o;
     list_price := list_price o; speed_up := speed_up o;
     speed_down := speed_down o; start_cost := start_cost o |}.

Definition set_bind_time (v : pystr) (o : Offer) : Offer :=
  {| name := name o; banner := banner o; isp := isp o; campaign := campaign o;
     bind_time := Some v; leave_time := leave_time o;
     list_price := list_price o; speed_up := speed_up o;
     speed_down := speed_down o; start_cost := start_cost o |}.

Definition set_leave_time (v : pystr) (o : Offer) : Offer :=
  {| name := name o; banner := banner o; isp := isp o; campaign := campaign o;
     bind_time := bind_time o; leave_time := Some v;
     list_price := list_price o; speed_up := speed_up o;
     speed_down := speed_down o; start_cost := start_cost o |}.

(** *** [class IntProp] *)

(** The four descriptors of the class. *)
Inductive intprop := P_list_price | P_speed_up | P_speed_down | P_start_cost.

Definition field_of (p : intprop) : field :=
  match p with
  | P_list_price => F_list_price
  | P_speed_up => F_speed_up
  | P_speed_down => F_speed_down
  | P_start_cost => F_start_cost
  end.

(** The entry of the descriptor's dictionary for an instance. *)
Definition values (p : intprop) (o : Offer) : option Z :=
  match p with
  | P_list_price => list_price o
  | P_speed_up => speed_up o
  | P_speed_down => speed_down o
  | P_start_cost => start_cost o
  end.

Definition store (p : intprop) (z : Z) (o : Offer) : Offer :=
  {| name := name o; banner := banner o; isp := isp o; campaign := campaign o;
     bind_time := bind_time o; leave_time := leave_time o;
     list_price := match p with P_list_price => Some z | _ => list_price o end;
     speed_up := match p with P_speed_up => Some z | _ => speed_up o end;
     speed_down := match p with P_speed_down => Some z | _ => speed_down o end;
     start_cost := match p with P_start_cost => Some z | _ => start_cost o end
  |}.

(** [IntProp.__get__]: [self.values.get(instance, None)]. *)
Definition IntProp_get (p : intprop) (o : Offer) : number :=
  match values p o with
  | Some z => NInt z
  | None => NNone
  end.

Section OfferMethods.

Context {db : UnicodeDB}.

(** [IntProp.__set__]: [self.values[instance] = int(value)]. *)
Definition IntProp_set (p : intprop) (o : Offer) (value : pyval)
  : result Offer :=
  (z <- py_int value ;; Ok (store p z o))%py.

(** [Offer.__str__]. *)
Definition Offer_str (o : Offer) : result pystr :=
  match isp o with
  | None => Raise TypeError
  | Some r =>
      Ok (r ++ ([10; 9]%N ++ lit "Speed: ")
            ++ py_str_of_int_opt (speed_up o)
            ++ lit "/" ++ py_str_of_int_opt (speed_down o))
  end.

End OfferMethods.

(** *** Evaluation with a receiver and an output stream

    [year_cost] reads and, on one path, assigns an attribute of [self],
    and prints.  A computation takes the receiver and the lines printed so
    far, and gives a result or an exception together with both. *)

Record world := { self : Offer; stdout : list pystr }.

Definition M (A : Type) := world -> result A * world.

Definition raise {A} (e : exn) : M A := fun w => (Raise e, w).
Definition lift {A} (r : result A) : M A := fun w => (r, w).

Definition bindM {A B} (m : M A) (k : A -> M B) : M B :=
  fun w =>
    match m w with
    | (Ok a, w') => k a w'
    | (Raise e, w') => (Raise e, w')
    end.

Definition get_self : M Offer := fun w => (Ok (self w), w).

Definition assign_campaign (v : pystr) : M unit :=
  fun w => (Ok tt, {| self := set_campaign v (self w); stdout := stdout w |}).

Definition print (line : pystr) : M unit :=
  fun w => (Ok tt, {| self := self w; stdout := stdout w ++ [line] |}).

Declare Scope m_scope.
Delimit Scope m_scope with M.
Notation "x <- c ;; k" := (bindM c (fun x => k))
  (at level 61, c at next level, right associativity) : m_scope.
Notation "c ;; k" := (bindM c (fun _ => k))
  (at level 61, right associativity) : m_scope.

(** The text put in front of a campaign that could not be interpreted. *)
Definition failure_marker : pystr := lit "## Campaign parse failed ## ".

Section YearCost.

Context {db : UnicodeDB}.

Local Open Scope m_scope.

(** [self.start_cost + self.list_price*12]. *)
Definition full_price : M number :=
  o <- get_self ;;
  x <- lift (py_mul (IntProp_get P_list_price o) (NInt 12)) ;;
  lift (py_add (IntProp_get P_start_cost o) x).

(** Lines 73 to 78, for a campaign text [c] and a duration [months]. *)
Definition discounted (c : pystr) (months : Z) : M number :=
  let half_price :=
    o <- get_self ;;
    a <- lift (py_mul (NInt months) (NFloat Float.half)) ;;
    b <- lift (py_add a (NInt 12)) ;;
    f <- lift (py_sub b (NInt months)) ;;
    x <- lift (py_mul (IntProp_get P_list_price o) f) ;;
    lift (py_add x (IntProp_get P_start_cost o)) in
  match re_search reduced_re c with
  | Some reduced =>
      reduced_price <- lift (py_int (VStr (group 1 reduced))) ;;
      if (reduced_price =? 0)%Z then half_price
      else
        o <- get_self ;;
        a <- lift (py_mul (NInt months) (NInt reduced_price)) ;;
        b <- lift (py_mul (IntProp_get P_list_price o)
                          (NInt (12 - months))) ;;
        x <- lift (py_add a b) ;;
        lift (py_add x (IntProp_get P_start_cost o))
  | None => half_price
  end.

(** The property [Offer.year_cost]. *)
Definition year_cost_body : M number :=
  o <- get_self ;;
  match campaign o with
  | None => full_price
  | Some [] => full_price
  | Some c =>
      match re_search months_re c with
      | Some m =>
          let months := group 1 m in
          let months :=
            if str_eqb months (lit "tre") then VInt 3 else VStr months in
          match py_int months with
          | Ok months => discounted c months
          | Raise TypeError => print c ;; raise TypeError
          | Raise e => raise e
          end
      | None =>
          if str_in (lit "ett halvår") c then discounted c 6
          else
            s <- lift (Offer_str o) ;;
            print (s ++ lit " Unhandled campaign: " ++ c) ;;
            assign_campaign (failure_marker ++ c) ;;
            full_price
      end
  end.

(** Reading [o.year_cost]: the value or exception, the object afterwards
    and the lines printed. *)
Definition year_cost (o : Offer) : result number * world :=
  year_cost_body {| self := o; stdout := [] |}.

End YearCost.

(** ** [parse_page]

    The markup library is outside the program.  An element is what the
    program asks of it: its text and its attributes; an offer element
    ([article.serviceOffer]) is its class list and, for each selector the
    program applies to it, the elements selected, in document order. *)

Record tag := {
  get_text : pystr;
  attrs : list (pystr * pystr);
}.

Record article := {
  classes : list pystr;          (* offer["class"] *)
  sel_banner : list tag;         (* .serviceOfferText > h4 *)
  sel_product_name : list tag;   (* .product-name *)
  sel_isp_link : list tag;       (* .isp-link *)
  sel_price : list tag;          (* strong[data-bdd-id='endUserPrice'] *)
  sel_campaign : list tag;       (* div[data-bdd-id='campaignDetailsText'] *)
  sel_conditions : list tag;     (* p[data-bdd-id='serviceOfferPurchaseInformation'] *)
}.

Definition SLASH : char := 47%N.
Definition COLON : char := 58%N.
Definition NEWLINE : char := 10%N.

Section ParsePage.

Context {db : UnicodeDB}.

Local Open Scope py_scope.

(** [pattern.search(x)] for an attribute that may still be [None]. *)
Definition search_attr (r : regex) (x : option pystr)
  : result (option mstate) :=
  match x with
  | Some s => Ok (re_search r s)
  | None => Raise TypeError
  end.

(** Line 95: [.attrs["href"].split("/")[3]]. *)
Definition isp_of_href (href : pystr) : result pystr :=
  index (split_on SLASH href) 3.

(** Lines 97 to 104. *)
Definition resolve_speed (o : Offer) : result Offer :=
  in_name <- search_attr speed_re (name o) ;;
  speed <- match in_name with
           | Some m => Ok (Some m)
           | None => search_attr speed_re (banner o)
           end ;;
  match speed with
  | Some m =>
      o <- IntProp_set P_speed_down o (VStr (group 1 m)) ;;
      IntProp_set P_speed_up o (VStr (group 2 m))
  | None =>
      speed <- search_attr digits_re (banner o) ;;
      match speed with
      | None => Raise AttributeError
      | Some m =>
          o <- IntProp_set P_speed_up o (VStr (group 0 m)) ;;
          IntProp_set P_speed_down o (VStr (group 0 m))
      end
  end.

(** Lines 110 to 114. *)
Definition read_conditions (a : article) (o : Offer) : result Offer :=
  conditions <- index (sel_conditions a) 0 ;;
  match split_on NEWLINE (strip (get_text conditions)) with
  | [s; b; l] =>
      tok <- index (split_ws s) 1 ;;
      o <- IntProp_set P_start_cost o (VStr (strip tok)) ;;
      x <- index (split_on COLON b) 1 ;;
      let o := set_bind_time (strip x) o in
      y <- index (split_on COLON l) 1 ;;
      Ok (set_leave_time (strip y) o)
  | lines => Raise (ValueError_unpack 3 (length lines))
  end.

(** Lines 92 to 108. *)
Definition parse_head (a : article) : result Offer :=
  let o := Offer_init in
  t <- index (sel_banner a) 0 ;;
  let o := set_banner (strip (get_text t)) o in
  t <- index (sel_product_name a) 0 ;;
  let o := set_name (get_text t) o in
  t <- index (sel_isp_link a) 0 ;;
  href <- getitem (attrs t) (lit "href") ;;
  seg <- isp_of_href href ;;
  let o := set_isp seg o in
  o <- resolve_speed o ;;
  t <- index (sel_price a) 0 ;;
  tok <- index (split_ws (get_text t)) 0 ;;
  o <- IntProp_set P_list_price o (VStr tok) ;;
  if list_in (lit "campaign") (classes a)
  then
    c <- index (sel_campaign a) 0 ;;
    x <- index (split_once NEWLINE (strip (get_text c))) 1 ;;
    Ok (set_campaign (strip x) o)
  else Ok o.

(** The body of the loop, lines 92 to 114. *)
Definition parse_offer (a : article) : result Offer :=
  o <- parse_head a ;;
  read_conditions a o.

(** The loop over the offer elements, with the list built so far. *)
Fixpoint parse_loop (arts : list article) (offers : list Offer)
  : result (list Offer) :=
  match arts with
  | [] => Ok offers
  | a :: rest =>
      o <- parse_offer a ;;
      parse_loop rest (offers ++ [o])
  end.

(** [parse_page], from the elements [soup.select("article.serviceOffer")]
    yields. *)
Definition parse_page (doc : list article) : result (list Offer) :=
  parse_loop doc [].

End ParsePage.

(** ** [write_xslx]

    The spreadsheet library is outside the program.  A worksheet is what
    the program does to it: its title, the calls [sheet.cell(row, col,
    value)] in order, the column widths and number formats set, and the
    range of the filter.  What the library does with a value it is given
    is not part of the model, and neither is the saving of the file.  The
    offers of the list are distinct objects, as those [parse_page] creates
    are. *)

















Section WriteXslx.

Context {db : UnicodeDB}.

Local Open Scope m_scope.







End WriteXslx.

(** * Notions used in the statements *)

(** ** Campaign texts *)

Section CampaignNotions.

Context {db : UnicodeDB}.

(** A campaign text of which [year_cost] can make nothing: it is not
    empty, the duration pattern matches nowhere and the half-year phrase
    does not occur. *)
Definition unresolved (c : pystr) : Prop :=
  c <> [] /\ re_search months_re c = None
  /\ str_in (lit "ett halvår") c = false.

(** Lines 58 to 62: the duration a matched token stands for, when the
    conversion succeeds. *)
Definition duration_of (g : pystr) : option Z :=
  if str_eqb g (lit "tre") then Some 3%Z else int_of_str g.

(** What group 1 of [months_re] can hold. *)
Inductive months_token : pystr -> Prop :=
| MT_one d : is_digit d = true -> months_token [d]
| MT_two d1 d2 :
    is_digit d1 = true -> is_digit d2 = true -> months_token [d1; d2]
| MT_tre a b c :
    u_lower a = 116%N -> u_lower b = 114%N -> u_lower c = 101%N ->
    months_token [a; b; c].

(** The value of a decimal digit character, and of a string of them. *)
Definition digit_of (c : char) : Z :=
  match u_decimal c with
  | Some d => d
  | None => 0%Z
  end.

Definition digits_value (w : pystr) : Z :=
  fold_left (fun acc c => (acc * 10 + digit_of c)%Z) w 0%Z.

Definition all_digits (w : pystr) : Prop :=
  Forall (fun c => is_digit c = true) w.

(** A character at which no match of [months_re] can begin. *)
Definition cannot_start (x : char) : Prop :=
  is_digit x = false /\ u_lower x <> 116%N.


End CampaignNotions.


(** The character before the position reached after reading [pre]. *)
Fixpoint last_char (prev : option char) (pre : pystr) : option char :=
  match pre with
  | [] => prev
  | x :: pre' => last_char (Some x) pre'
  end.

(** Two offers with the same fields, the campaign apart. *)
Definition same_but_campaign (o o' : Offer) : Prop :=
  name o' = name o /\ banner o' = banner o /\ isp o' = isp o
  /\ bind_time o' = bind_time o /\ leave_time o' = leave_time o
  /\ list_price o' = list_price o /\ speed_up o' = speed_up o
  /\ speed_down o' = speed_down o /\ start_cost o' = start_cost o.

(** ** The half-price factor *)

(** Integer to float, with infinity where the conversion overflows. *)
Definition to_float (z : Z) : spec_float :=
  binary_normalize Float.prec Float.emax z 0 false.

(** [m * 0.5 + (12 - m)], as the specification writes the factor. *)
Definition half_price_factor (m : Z) : spec_float :=
  Float.add (Float.mul (to_float m) Float.half) (to_float (12 - m)).

(** [months*0.5 + 12 - months], as line 78 computes it. *)
Definition half_price_factor_code (m : Z) : spec_float :=
  Float.sub (Float.add (Float.mul (to_float m) Float.half) (to_float 12))
            (to_float m).

Definition is_finite_of_int (m : Z) : bool :=
  match Float.of_int m with
  | Ok f => Float.eqb f (to_float m)
  | Raise _ => false
  end.

(** ** A relational reading of the matcher *)

Definition advance (c : char) (rest : pystr) (st : mstate) : mstate :=
  {| ms_prev := Some c; ms_rest := rest; ms_pos := S (ms_pos st);
     ms_groups := ms_groups st |}.

Section Steps.

Context {db : UnicodeDB}.

(** What a single-character regex accepts. *)
Definition char_test (r : regex) : option (char -> bool) :=
  match r with
  | Lit c => Some (fun x => char_eqb x c)
  | LitI c => Some (fun x => char_eqb (u_lower x) c)
  | Digit => Some is_digit
  | OneOf cs => Some (fun x => existsb (char_eqb x) cs)
  | _ => None
  end.

(** [rsteps r st w st']: from state [st], [r] can consume [w] and reach
    [st']. *)
Inductive rsteps : regex -> mstate -> pystr -> mstate -> Prop :=
| RS_char r p st c rest :
    char_test r = Some p -> ms_rest st = c :: rest -> p c = true ->
    rsteps r st [c] (advance c rest st)
| RS_wordb st :
    at_boundary st = true -> rsteps WordB st [] st
| RS_seq a b st w1 st1 w2 st2 :
    rsteps a st w1 st1 -> rsteps b st1 w2 st2 ->
    rsteps (Seq a b) st (w1 ++ w2) st2
| RS_alt_l a b st w st' : rsteps a st w st' -> rsteps (Alt a b) st w st'
| RS_alt_r a b st w st' : rsteps b st w st' -> rsteps (Alt a b) st w st'
| RS_opt_some a st w st' : rsteps a st w st' -> rsteps (Opt a) st w st'
| RS_opt_none a st : rsteps (Opt a) st [] st
| RS_plus_one a st w st' : rsteps a st w st' -> rsteps (Plus a) st w st'
| RS_plus_more a st w1 st1 w2 st2 :
    rsteps a st w1 st1 -> rsteps (Plus a) st1 w2 st2 ->
    rsteps (Plus a) st (w1 ++ w2) st2
| RS_group n a st w st' :
    rsteps a st w st' ->
    rsteps (Group n a) st w
           (set_group n (firstn (ms_pos st' - ms_pos st) (ms_rest st)) st').

End Steps.

(** ** Offers used as examples *)

Definition example_offer (c : option pystr) (lp sc : Z) : Offer :=
  {| name := Some (lit "Bredband 100/10");
     banner := Some (lit "100 Mbit/s");
     isp := Some (lit "bahnhof");
     campaign := c;
     bind_time := Some (lit "12 mån");
     leave_time := Some (lit "1 mån");
     list_price := Some lp;
     speed_up := Some 10%Z;
     speed_down := Some 100%Z;
     start_cost := Some sc |}.

(** ** Notions about [parse_page] *)

(** An exception of the interpreter, as opposed to the error classes of
    the specification. *)
Definition builtin (e : exn) : Prop :=
  match e with
  | FieldExtractionError _ | MalformedFieldError _ _ => False
  | _ => True
  end.

(** [o] has the name, banner, provider and speeds of [o1]. *)
Definition keeps_head (o1 o : Offer) : Prop :=
  name o = name o1 /\ banner o = banner o1 /\ isp o = isp o1
  /\ speed_up o = speed_up o1 /\ speed_down o = speed_down o1.

(** A text without the separator of the link path. *)
Definition no_slash (p : pystr) : Prop := Forall (fun c => c <> SLASH) p.

Section ParseNotions.

Context {db : UnicodeDB}.

(** The lines of the conditions block of an offer element. *)
Definition conditions_lines (a : article) : option (list pystr) :=
  match sel_conditions a with
  | t :: _ => Some (split_on NEWLINE (strip (get_text t)))
  | [] => None
  end.



End ParseNotions.

(** ** Text in the Latin-1 range *)

Definition is_latin1 (s : pystr) : bool := forallb (fun c => (c <? 256)%N) s.


(** ** Offer elements used as examples *)

Definition text_tag (s : pystr) : tag := {| get_text := s; attrs := [] |}.

Definition link_tag (s href : pystr) : tag :=
  {| get_text := s;
     attrs := [(lit "class", lit "isp-link"); (lit "href", href)] |}.

Definition three_lines : pystr :=
  [NEWLINE] ++ lit "Startavgift: 500 kr" ++ [NEWLINE]
  ++ lit "Bindningstid: 12 mån" ++ [NEWLINE]
  ++ lit "Uppsägningstid: 1 mån" ++ [NEWLINE].

Definition two_lines : pystr :=
  [NEWLINE] ++ lit "Startavgift: 500 kr" ++ [NEWLINE]
  ++ lit "Bindningstid: 12 mån" ++ [NEWLINE].

(** An offer element without a campaign, with the given link target and
    conditions block. *)
Definition example_article (href conditions : pystr) : article :=
  {| classes := [lit "serviceOffer"];
     sel_banner := [text_tag (lit " Bredband 100 Mbit/s ")];
     sel_product_name := [text_tag (lit "100/10 Fiber")];
     sel_isp_link := [link_tag (lit "Bahnhof") href];
     sel_price := [text_tag (lit " 299 kr/mån ")];
     sel_campaign := [];
     sel_conditions := [text_tag conditions] |}.

(** An offer element with a campaign. *)
Definition example_campaign_article : article :=
  {| classes := [lit "serviceOffer"; lit "campaign"];
     sel_banner := [text_tag (lit " Bredband 250 Mbit/s ")];
     sel_product_name := [text_tag (lit "250/100 Fiber")];
     sel_isp_link :=
       [link_tag (lit "Bahnhof") (lit "internet/privat/isp/bahnhof")];
     sel_price := [text_tag (lit " 399 kr/mån ")];
     sel_campaign :=
       [text_tag ([NEWLINE] ++ lit "Kampanj" ++ [NEWLINE]
                  ++ lit "  Halva priset i 3 mån, 199kr " ++ [NEWLINE])];
     sel_conditions := [text_tag three_lines] |}.

(** The offer extracted from the first example, and two documents. *)
Definition bahnhof_href : pystr :=
  lit "kungsbackastadsnat/internet/privat/bahnhof/xyz".

Definition example_parsed_offer : Offer :=
  Eval vm_compute in
    match parse_offer (example_article bahnhof_href three_lines) with
    | Ok o => o
    | Raise _ => Offer_init
    end.

Definition example_document : list article :=
  [example_campaign_article; example_article bahnhof_href three_lines].

Definition two_line_document : list article :=
  [example_campaign_article; example_article bahnhof_href two_lines].

(** ** Exceptions of the arithmetic *)

(** What makes [*], [+] or [-] raise [e]: an operand that is [None], or
    an integer too large for a float. *)
Definition operand_unset (a b : number) (e : exn) : Prop :=
  (e = TypeError /\ (a = NNone \/ b = NNone)) \/ e = OverflowError.

(** ** Exceptions of [parse_page] *)

(** The exceptions an offer element can make [parse_page] raise: a
    selector that selects nothing or a text with too few parts, a link
    without [href], no speed in either text, a price or start cost that is
    no integer, a conditions block that has not three lines. *)
Definition parse_exception (e : exn) : Prop :=
  e = IndexError
  \/ e = KeyError (lit "href")
  \/ e = AttributeError
  \/ (exists s, e = ValueError_int (VStr s))
  \/ (exists n, n <> 3 /\ e = ValueError_unpack 3 n).

(** All attributes of an offer but the campaign are set. *)
Definition populated (o : Offer) : Prop :=
  name o <> None /\ banner o <> None /\ isp o <> None
  /\ bind_time o <> None /\ leave_time o <> None
  /\ list_price o <> None /\ speed_up o <> None
  /\ speed_down o <> None /\ start_cost o <> None.

(** The number of occurrences of a character in a text. *)
Definition count_char (sep : char) (s : pystr) : nat :=
  length (filter (fun c => char_eqb c sep) s).

(** ** The rows of the worksheet *)





Section RowNotions.

Context {db : UnicodeDB}.







End RowNotions.



(** ** More examples *)

(** An offer with a provider and a start cost and no list price, and an
    offer with both prices and no provider. *)
Definition offer_without_price (c : option pystr) : Offer :=
  {| name := Some (lit "Bredband 100/10");
     banner := Some (lit "100 Mbit/s");
     isp := Some (lit "bahnhof");
     campaign := c;
     bind_time := None;
     leave_time := None;
     list_price := None;
     speed_up := Some 10%Z;
     speed_down := Some 100%Z;
     start_cost := Some 500%Z |}.

Definition offer_without_isp (c : option pystr) : Offer :=
  {| name := Some (lit "Bredband 100/10");
     banner := Some (lit "100 Mbit/s");
     isp := None;
     campaign := c;
     bind_time := None;
     leave_time := None;
     list_price := Some 299%Z;
     speed_up := Some 10%Z;
     speed_down := Some 100%Z;
     start_cost := Some 500%Z |}.

(** An offer with a name and a banner, before the speeds are resolved. *)
Definition offer_with_texts (nm bn : pystr) : Offer :=
  set_name nm (set_banner bn Offer_init).

(** An offer element whose provider link has no [href]. *)
Definition article_without_href : article :=
  {| classes := [lit "serviceOffer"];
     sel_banner := [text_tag (lit " Bredband 100 Mbit/s ")];
     sel_product_name := [text_tag (lit "100/10 Fiber")];
     sel_isp_link :=
       [{| get_text := lit "Bahnhof";
           attrs := [(lit "class", lit "isp-link")] |}];
     sel_price := [text_tag (lit " 299 kr/mån ")];
     sel_campaign := [];
     sel_conditions := [text_tag three_lines] |}.


Section TextNotions.

Context {db : UnicodeDB}.

(** A text that neither begins nor ends with white space. *)
Definition trimmed (t : pystr) : Prop :=
  (forall c, hd_error t = Some c -> u_isspace c = false)
  /\ (forall c, hd_error (rev t) = Some c -> u_isspace c = false).

End TextNotions.

(** * Properties *)

(** ** The branches leave the receiver alone *)

Section FrameOfBranches.

Context {db : UnicodeDB}.

Lemma lift_world A (r : result A) w : snd (lift r w) = w.
Proof. reflexivity. Qed.

Lemma bind_lift_world A B (r : result A) (k : A -> M B) w :
  (forall a, snd (k a w) = w) -> snd (bindM (lift r) k w) = w.
Proof. intros H. unfold bindM, lift. destruct r; simpl; auto. Qed.

Lemma full_price_world w : snd (full_price w) = w.
Proof.
  unfold full_price, bindM at 1, get_self.
  apply bind_lift_world. intros; apply lift_world.
Qed.

Lemma discounted_world c m w : snd (discounted c m w) = w.
Proof.
  unfold discounted.
  assert (Hh : forall w,
    snd ((o <- get_self ;;
      a <- lift (py_mul (NInt m) (NFloat Float.half)) ;;
      b <- lift (py_add a (NInt 12)) ;;
      f <- lift (py_sub b (NInt m)) ;;
      x <- lift (py_mul (IntProp_get P_list_price o) f) ;;
      lift (py_add x (IntProp_get P_start_cost o)))%M w) = w).
  { intros w0. unfold bindM at 1, get_self.
    repeat (apply bind_lift_world; intros). apply lift_world. }
  destruct (re_search reduced_re c); [|apply Hh].
  apply bind_lift_world. intros p.
  destruct (p =? 0)%Z; [apply Hh|].
  unfold bindM at 1, get_self.
  repeat (apply bind_lift_world; intros). apply lift_world.
Qed.

End FrameOfBranches.

(** ** [year_cost] by cases *)

Section YearCostCases.

Context {db : UnicodeDB}.

Lemma same_but_campaign_refl o : same_but_campaign o o.
Proof. repeat split. Qed.

Lemma same_but_campaign_set c o : same_but_campaign o (set_campaign c o).
Proof. repeat split. Qed.

Lemma bindM_get_self B (k : Offer -> M B) w :
  bindM get_self k w = k (self w) w.
Proof. reflexivity. Qed.

Lemma bindM_lift_Ok A B (a : A) (k : A -> M B) w :
  bindM (lift (Ok a)) k w = k a w.
Proof. reflexivity. Qed.

Lemma bindM_lift_Raise A B e (k : A -> M B) w :
  bindM (lift (Raise e)) k w = (Raise e, w).
Proof. reflexivity. Qed.

Lemma bindM_print B line (k : unit -> M B) w :
  bindM (print line) k w
  = k tt {| self := self w; stdout := stdout w ++ [line] |}.
Proof. reflexivity. Qed.

Lemma bindM_assign_campaign B v (k : unit -> M B) w :
  bindM (assign_campaign v) k w
  = k tt {| self := set_campaign v (self w); stdout := stdout w |}.
Proof. reflexivity. Qed.

(** [year_cost] by cases on the campaign text. *)
Lemma year_cost_unfold (o : Offer) :
  year_cost o =
  let w := {| self := o; stdout := [] |} in
  match campaign o with
  | None => full_price w
  | Some [] => full_price w
  | Some c =>
      match re_search months_re c with
      | Some m =>
          if str_eqb (group 1 m) (lit "tre") then discounted c 3 w
          else match int_of_str (group 1 m) with
               | Some months => discounted c months w
               | None => (Raise (ValueError_int (VStr (group 1 m))), w)
               end
      | None =>
          if str_in (lit "ett halvår") c then discounted c 6 w
          else
            match Offer_str o with
            | Ok s =>
                full_price
                  {| self := set_campaign (failure_marker ++ c) o;
                     stdout := [s ++ lit " Unhandled campaign: " ++ c] |}
            | Raise e => (Raise e, w)
            end
      end
  end.
Proof.
  unfold year_cost, year_cost_body. rewrite bindM_get_self. cbn [self].
  destruct (campaign o) as [[|c0 c]|]; try reflexivity.
  destruct (re_search months_re (c0 :: c)) as [m|].
  - cbv zeta. destruct (str_eqb (group 1 m) (lit "tre")); [reflexivity|].
    cbn [py_int]. now destruct (int_of_str (group 1 m)).
  - destruct (str_in (lit "ett halvår") (c0 :: c)); [reflexivity|].
    destruct (Offer_str o) as [s|e].
    + now rewrite bindM_lift_Ok, bindM_print, bindM_assign_campaign.
    + now rewrite bindM_lift_Raise.
Qed.

Lemma year_cost_world (o : Offer) :
  snd (year_cost o) = {| self := o; stdout := [] |}
  \/ exists c s,
       campaign o = Some c /\ unresolved c /\ Offer_str o = Ok s
       /\ snd (year_cost o)
          = {| self := set_campaign (failure_marker ++ c) o;
               stdout := [s ++ lit " Unhandled campaign: " ++ c] |}.
Proof.
  rewrite year_cost_unfold. cbv zeta.
  destruct (campaign o) as [[|c0 c]|] eqn:Hc;
    try (left; apply full_price_world).
  destruct (re_search months_re (c0 :: c)) as [m|] eqn:Hm.
  - left. destruct (str_eqb _ _); [apply discounted_world|].
    destruct (int_of_str _); [apply discounted_world|reflexivity].
  - destruct (str_in (lit "ett halvår") (c0 :: c)) eqn:Hh;
      [left; apply discounted_world|].
    destruct (Offer_str o) as [s|e] eqn:Hs; [|now left].
    right. exists (c0 :: c), s. rewrite full_price_world.
    repeat split; auto. discriminate.
Qed.

(** C8. Reading [year_cost] leaves the name, banner, provider, bind time,
    leave time, list price, speeds and start cost of the offer as they
    were; the campaign is as it was too, except on the path of an
    unresolved duration, where it becomes the failure marker followed by
    the original text. *)
Theorem year_cost_frame (o : Offer) :
  same_but_campaign o (self (snd (year_cost o)))
  /\ (campaign (self (snd (year_cost o))) = campaign o
      \/ exists c, campaign o = Some c /\ unresolved c
                   /\ campaign (self (snd (year_cost o)))
                      = Some (failure_marker ++ c)).
Proof.
  destruct (year_cost_world o) as [E|(c & s & Hc & Hu & _ & E)]; rewrite E.
  - split; [apply same_but_campaign_refl|now left].
  - split; [apply same_but_campaign_set|].
    right. exists c. auto.
Qed.

End YearCostCases.

(** ** The matcher is sound for [rsteps] *)

Section MatcherSound.

Context {db : UnicodeDB}.

Lemma one_char_sound p st k res :
  one_char p st k = Some res ->
  exists c rest, ms_rest st = c :: rest /\ p c = true
                 /\ k (advance c rest st) = Some res.
Proof.
  unfold one_char. destruct (ms_rest st) as [|c rest]; [discriminate|].
  destruct (p c) eqn:E; [|discriminate]. intros H. now exists c, rest.
Qed.

Lemma orelse_Some a b res :
  orelse a b = Some res -> a = Some res \/ b = Some res.
Proof. destruct a; simpl; auto. Qed.

Lemma rmatch_sound r :
  forall st k res,
    rmatch r st k = Some res ->
    exists w st', rsteps r st w st' /\ k st' = Some res.
Proof.
  induction r; intros st k res H; cbn [rmatch] in H.
  1-4: apply one_char_sound in H as (x & rest & Hr & Hp & Hk);
       exists [x], (advance x rest st); split; auto;
       eapply RS_char; [reflexivity|eassumption|assumption].
  - destruct (at_boundary st) eqn:E; [|discriminate].
    exists [], st. split; auto. now apply RS_wordb.
  - apply IHr1 in H as (w1 & st1 & H1 & H).
    apply IHr2 in H as (w2 & st2 & H2 & H).
    exists (w1 ++ w2), st2. split; auto. eapply RS_seq; eauto.
  - apply orelse_Some in H as [H|H].
    + apply IHr1 in H as (w & st' & H1 & H). exists w, st'. split; auto.
      now apply RS_alt_l.
    + apply IHr2 in H as (w & st' & H1 & H). exists w, st'. split; auto.
      now apply RS_alt_r.
  - apply orelse_Some in H as [H|H].
    + apply IHr in H as (w & st' & H1 & H). exists w, st'. split; auto.
      now apply RS_opt_some.
    + exists [], st. split; auto. apply RS_opt_none.
  - revert H. generalize (length (ms_rest st)) as fuel. intros fuel.
    revert st. induction fuel as [|fuel IHf]; intros st H.
    + apply IHr in H as (w & st' & H1 & H). exists w, st'. split; auto.
      now apply RS_plus_one.
    + apply IHr in H as (w & st' & H1 & H).
      destruct (Nat.eqb (ms_pos st') (ms_pos st)).
      * exists w, st'. split; auto. now apply RS_plus_one.
      * apply orelse_Some in H as [H|H].
        -- apply IHf in H as (w2 & st2 & H2 & H).
           exists (w ++ w2), st2. split; auto. eapply RS_plus_more; eauto.
        -- exists w, st'. split; auto. now apply RS_plus_one.
  - apply IHr in H as (w & st' & H1 & H).
    eexists w, _. split; [|exact H]. now apply RS_group.
Qed.

Lemma rsteps_consumes r st w st' :
  rsteps r st w st' ->
  ms_rest st = w ++ ms_rest st' /\ ms_pos st' = ms_pos st + length w.
Proof.
  assert (Hseq : forall (s0 s1 s2 : mstate) (w1 w2 : pystr),
    ms_rest s0 = w1 ++ ms_rest s1 /\ ms_pos s1 = ms_pos s0 + length w1 ->
    ms_rest s1 = w2 ++ ms_rest s2 /\ ms_pos s2 = ms_pos s1 + length w2 ->
    ms_rest s0 = (w1 ++ w2) ++ ms_rest s2
    /\ ms_pos s2 = ms_pos s0 + length (w1 ++ w2)).
  { intros s0 s1 s2 w1 w2 [E1 P1] [E2 P2].
    rewrite E1, E2, P2, P1, length_app, app_assoc. split; [reflexivity|lia]. }
  induction 1; eauto; cbn; (split; [assumption || reflexivity | lia]).
Qed.

End MatcherSound.

(** ** Inversion of [rsteps] *)

Section StepInversion.

Context {db : UnicodeDB}.

Lemma rsteps_char_inv r p st w st' :
  char_test r = Some p -> rsteps r st w st' ->
  exists c rest, ms_rest st = c :: rest /\ p c = true /\ w = [c]
                 /\ st' = advance c rest st.
Proof.
  intros Hp H. destruct H; try discriminate.
  rewrite Hp in H. injection H as <-. eauto 6.
Qed.

Lemma rsteps_wordb_inv st w st' :
  rsteps WordB st w st' -> w = [] /\ st' = st /\ at_boundary st = true.
Proof. inversion 1; subst; try discriminate; auto. Qed.

Lemma rsteps_seq_inv a b st w st2 :
  rsteps (Seq a b) st w st2 ->
  exists w1 st1 w2, w = w1 ++ w2 /\ rsteps a st w1 st1 /\ rsteps b st1 w2 st2.
Proof. inversion 1; subst; try discriminate; eauto 6. Qed.

Lemma rsteps_alt_inv a b st w st' :
  rsteps (Alt a b) st w st' -> rsteps a st w st' \/ rsteps b st w st'.
Proof. inversion 1; subst; try discriminate; auto. Qed.

Lemma rsteps_opt_inv a st w st' :
  rsteps (Opt a) st w st' -> rsteps a st w st' \/ (w = [] /\ st' = st).
Proof. inversion 1; subst; try discriminate; auto. Qed.

Lemma rsteps_group_inv n a st w st2 :
  rsteps (Group n a) st w st2 ->
  exists st', rsteps a st w st' /\ st2 = set_group n w st'.
Proof.
  inversion 1; subst; try discriminate.
  match goal with
  | Hs : rsteps a st w ?s |- _ =>
      exists s; split; [assumption|]; f_equal;
      destruct (rsteps_consumes Hs) as [E P]
  end.
  rewrite E, P. replace (ms_pos st + length w - ms_pos st) with (length w) by lia.
  rewrite firstn_app, Nat.sub_diag, firstn_all. cbn. apply app_nil_r.
Qed.

Lemma rsteps_plus_chars a p st w st' :
  char_test a = Some p -> rsteps (Plus a) st w st' ->
  w <> [] /\ Forall (fun c => p c = true) w /\ ms_groups st' = ms_groups st.
Proof.
  intros Hp H. remember (Plus a) as r eqn:Hr.
  induction H; try discriminate; [subst; discriminate| |];
    injection Hr as ->.
  - destruct (rsteps_char_inv Hp H) as (c & rest & _ & Hc & -> & ->).
    repeat split; [discriminate|now constructor].
  - destruct (rsteps_char_inv Hp H) as (c & rest & _ & Hc & -> & ->).
    destruct (IHrsteps2 eq_refl) as (_ & IH & G).
    repeat split; [discriminate|now constructor|exact G].
Qed.

Lemma search_from_sound r prev s m :
  search_from r prev s = Some m ->
  exists prev' s', match_here r prev' s' = Some m.
Proof.
  revert prev. induction s as [|c s IH]; intros prev; cbn [search_from].
  - destruct (match_here r prev []) eqn:E; [|discriminate].
    intros [= <-]. eauto.
  - destruct (match_here r prev (c :: s)) eqn:E.
    + intros [= <-]. eauto.
    + apply IH.
Qed.

End StepInversion.

(** ** [int] of digit strings *)

Section Digits.

Context {db : UnicodeDB}.

Lemma digit_of_range c : (0 <= digit_of c <= 9)%Z.
Proof.
  unfold digit_of. destruct (u_decimal c) eqn:E; [|lia].
  eapply u_decimal_range; eauto.
Qed.

Lemma in_range_spec lo hi c :
  Latin1.in_range lo hi c = true <-> (lo <= c <= hi)%N.
Proof.
  unfold Latin1.in_range. rewrite andb_true_iff, !N.leb_le. tauto.
Qed.

Lemma to_ascii_digit c :
  is_digit c = true ->
  (48 <= to_ascii c <= 57)%N /\ (Z.of_N (to_ascii c) - 48)%Z = digit_of c.
Proof.
  unfold is_digit, digit_of, to_ascii.
  destruct (u_decimal c) as [d|] eqn:E; [intros _|discriminate].
  destruct (c <? 127)%N eqn:L.
  - apply N.ltb_lt in L.
    rewrite u_decimal_latin1 in E by lia.
    unfold Latin1.decimal in E.
    destruct (Latin1.in_range 48 57 c) eqn:R; [|discriminate].
    apply in_range_spec in R. injection E as <-. split; [lia|reflexivity].
  - rewrite (u_decimal_not_space _ E).
    pose proof (u_decimal_range _ E). split; lia.
Qed.

Lemma digit_val_spec c :
  (48 <= c <= 57)%N -> digit_val c = Some (Z.of_N c - 48)%Z.
Proof.
  intros H. unfold digit_val. apply in_range_spec in H. now rewrite H.
Qed.

Lemma scan_digits_all a :
  forall acc,
    Forall (fun c => (48 <= c <= 57)%N) a ->
    scan_digits acc false a
    = Some (fold_left (fun acc c => (acc * 10 + (Z.of_N c - 48))%Z) a acc, []).
Proof.
  induction a as [|c a IH]; intros acc H; cbn [scan_digits fold_left].
  - reflexivity.
  - inversion H; subst. rewrite digit_val_spec by assumption. now apply IH.
Qed.

Lemma fold_digits_map w :
  all_digits w ->
  forall acc,
    fold_left (fun acc c => (acc * 10 + (Z.of_N c - 48))%Z) (map to_ascii w) acc
    = fold_left (fun acc c => (acc * 10 + digit_of c)%Z) w acc.
Proof.
  induction 1 as [|c w Hc Hw IH]; intros acc; cbn [map fold_left].
  - reflexivity.
  - destruct (to_ascii_digit _ Hc) as [_ ->]. apply IH.
Qed.

(** [int()] of a non-empty string of decimal digits is its value. *)
Lemma int_of_digits w :
  w <> [] -> all_digits w -> int_of_str w = Some (digits_value w).
Proof.
  intros Hne Hw.
  assert (Ha : Forall (fun c => (48 <= c <= 57)%N) (map to_ascii w)).
  { apply Forall_map. eapply Forall_impl; [|exact Hw].
    intros c Hc. now apply to_ascii_digit. }
  unfold int_of_str, digits_value.
  rewrite <- (fold_digits_map Hw).
  destruct (map to_ascii w) as [|c a] eqn:E.
  { destruct w; [congruence|discriminate]. }
  assert (Hc : (48 <= c <= 57)%N) by now inversion Ha.
  cbn [drop_while]. unfold ascii_isspace.
  replace (c =? 32)%N with false by (symmetry; apply N.eqb_neq; lia).
  replace (Latin1.in_range 9 13 c) with false.
  2:{ symmetry. apply not_true_is_false. rewrite in_range_spec. lia. }
  cbn [orb].
  replace (c =? 43)%N with false by (symmetry; apply N.eqb_neq; lia).
  replace (c =? 45)%N with false by (symmetry; apply N.eqb_neq; lia).
  rewrite (digit_val_spec Hc), (scan_digits_all _ Ha). reflexivity.
Qed.

Lemma digits_value_nonneg w : (0 <= digits_value w)%Z.
Proof.
  unfold digits_value.
  assert (H : forall acc, (0 <= acc)%Z ->
     (0 <= fold_left (fun acc c => (acc * 10 + digit_of c)%Z) w acc)%Z).
  { induction w as [|c w IH]; intros acc Hacc; cbn [fold_left]; [assumption|].
    apply IH. pose proof (digit_of_range c). lia. }
  apply H. lia.
Qed.

End Digits.

(** ** The token of [months_re] *)

Section MonthsToken.

Context {db : UnicodeDB}.

Lemma char_eqb_eq a b : char_eqb a b = true <-> a = b.
Proof. apply N.eqb_eq. Qed.

Lemma rsteps_lit_inv c st w st' :
  rsteps (Lit c) st w st' ->
  exists x rest, ms_rest st = x :: rest /\ x = c /\ w = [x]
                 /\ st' = advance x rest st.
Proof.
  intros H. apply (@rsteps_char_inv _ (Lit c) _ st w st' eq_refl) in H
    as (x & rest & ? & E & ? & ?).
  apply char_eqb_eq in E. eauto 6.
Qed.

Lemma rsteps_liti_inv c st w st' :
  rsteps (LitI c) st w st' ->
  exists x rest, ms_rest st = x :: rest /\ u_lower x = c /\ w = [x]
                 /\ st' = advance x rest st.
Proof.
  intros H. apply (@rsteps_char_inv _ (LitI c) _ st w st' eq_refl) in H
    as (x & rest & ? & E & ? & ?).
  apply char_eqb_eq in E. eauto 6.
Qed.

Lemma rsteps_digit_inv st w st' :
  rsteps Digit st w st' ->
  exists x rest, ms_rest st = x :: rest /\ is_digit x = true /\ w = [x]
                 /\ st' = advance x rest st.
Proof. apply (@rsteps_char_inv _ Digit _ st w st' eq_refl). Qed.

Lemma rsteps_oneof_inv cs st w st' :
  rsteps (OneOf cs) st w st' ->
  exists x rest, ms_rest st = x :: rest /\ existsb (char_eqb x) cs = true
                 /\ w = [x] /\ st' = advance x rest st.
Proof. apply (@rsteps_char_inv _ (OneOf cs) _ st w st' eq_refl). Qed.

End MonthsToken.

Ltac inv_steps :=
  repeat match goal with
  | H : rsteps (Seq _ _) _ _ _ |- _ =>
      apply rsteps_seq_inv in H as (? & ? & ? & -> & ? & ?)
  | H : rsteps (Alt _ _) _ _ _ |- _ => apply rsteps_alt_inv in H as [?|?]
  | H : rsteps (Opt _) _ _ _ |- _ =>
      apply rsteps_opt_inv in H as [?|[-> ->]]
  | H : rsteps (Group _ _) _ _ _ |- _ =>
      apply rsteps_group_inv in H as (? & ? & ->)
  | H : rsteps WordB _ _ _ |- _ =>
      apply rsteps_wordb_inv in H as (-> & -> & ?)
  | H : rsteps (Lit _) _ _ _ |- _ =>
      apply rsteps_lit_inv in H as (? & ? & ? & ? & -> & ->)
  | H : rsteps (LitI _) _ _ _ |- _ =>
      apply rsteps_liti_inv in H as (? & ? & ? & ? & -> & ->)
  | H : rsteps Digit _ _ _ |- _ =>
      apply rsteps_digit_inv in H as (? & ? & ? & ? & -> & ->)
  | H : rsteps (OneOf _) _ _ _ |- _ =>
      apply rsteps_oneof_inv in H as (? & ? & ? & ? & -> & ->)
  end.

Section MonthsToken2.

Context {db : UnicodeDB}.

Lemma match_here_months_group prev s m :
  match_here months_re prev s = Some m -> months_token (group 1 m).
Proof.
  unfold match_here. intros H.
  apply rmatch_sound in H as (w & st' & Hs & [= <-]).
  unfold months_re, wordI, lit in Hs. cbn in Hs.
  inv_steps; cbn; constructor; auto.
Qed.

Lemma search_months_group s m :
  re_search months_re s = Some m -> months_token (group 1 m).
Proof.
  intros H. apply search_from_sound in H as (prev & s' & H).
  eapply match_here_months_group; eauto.
Qed.

End MonthsToken2.

(** ** Durations *)

Section Durations.

Context {db : UnicodeDB}.

Lemma digit_val_Some c d : digit_val c = Some d -> (48 <= c <= 57)%N.
Proof.
  unfold digit_val. destruct (Latin1.in_range 48 57 c) eqn:R; [|discriminate].
  intros _. now apply in_range_spec.
Qed.

Lemma to_ascii_is_digit c : (48 <= to_ascii c <= 57)%N -> is_digit c = true.
Proof.
  unfold to_ascii, is_digit. destruct (c <? 127)%N eqn:L.
  - apply N.ltb_lt in L. intros H.
    rewrite u_decimal_latin1 by lia. unfold Latin1.decimal.
    apply in_range_spec in H. now rewrite H.
  - destruct (u_isspace c); [lia|].
    destruct (u_decimal c); [reflexivity|lia].
Qed.

Lemma In_drop_while p (l : pystr) x : In x (drop_while p l) -> In x l.
Proof.
  induction l as [|c l IH]; cbn; [auto|].
  destruct (p c); [right; auto|auto].
Qed.

Lemma int_of_str_has_digit s v :
  int_of_str s = Some v -> exists c, In c s /\ is_digit c = true.
Proof.
  unfold int_of_str.
  pose proof (@In_drop_while ascii_isspace (map to_ascii s)) as Hin.
  destruct (drop_while ascii_isspace (map to_ascii s)) as [|c a]; [discriminate|].
  assert (Hx : forall neg (a0 : pystr),
    (forall x, In x a0 -> In x (c :: a)) ->
    match a0 with
    | [] => None
    | c0 :: _ =>
        match digit_val c0 with
        | Some _ =>
            match scan_digits 0 false a0 with
            | Some (v, rest) =>
                match drop_while ascii_isspace rest with
                | [] => Some (if neg : bool then (- v)%Z else v)
                | _ :: _ => None
                end
            | None => None
            end
        | None => None
        end
    end = Some v -> exists c, In c s /\ is_digit c = true).
  { intros neg [|x a0] Hsub; [discriminate|].
    destruct (digit_val x) eqn:D; [intros _|discriminate].
    apply digit_val_Some in D.
    assert (Hm : In x (map to_ascii s)) by (apply Hin, Hsub; now left).
    apply in_map_iff in Hm as (c0 & <- & Hc0).
    exists c0. split; [assumption|now apply to_ascii_is_digit]. }
  destruct (c =? 43)%N;
    [intros H; apply (Hx false a); [intros; now right|exact H]|].
  destruct (c =? 45)%N;
    [intros H; apply (Hx true a); [intros; now right|exact H]|].
  intros H; apply (Hx false (c :: a)); [auto|exact H].
Qed.

Lemma lower_not_digit c x :
  u_lower c = x -> (x < 256)%N -> Latin1.decimal x = None ->
  is_digit c = false.
Proof.
  intros Hl Hx Hd. unfold is_digit.
  destruct (u_decimal c) as [d|] eqn:E; [|reflexivity].
  rewrite (u_decimal_uncased _ E) in Hl. subst x.
  rewrite u_decimal_latin1 in E by assumption. congruence.
Qed.

(** A duration read from a matched token lies between 0 and 99. *)
Lemma duration_range g mo :
  months_token g -> duration_of g = Some mo -> (0 <= mo <= 99)%Z.
Proof.
  intros Hg. unfold duration_of.
  destruct (str_eqb g (lit "tre")) eqn:E; [intros [= <-]; lia|].
  destruct Hg as [d Hd|d1 d2 H1 H2|a b c Ha Hb Hc].
  - rewrite int_of_digits by (try discriminate; now repeat constructor).
    intros [= <-]. cbn. pose proof (digit_of_range d). lia.
  - rewrite int_of_digits by (try discriminate; now repeat constructor).
    intros [= <-]. cbn.
    pose proof (digit_of_range d1). pose proof (digit_of_range d2). lia.
  - intros H. apply int_of_str_has_digit in H as (x & Hin & Hx).
    assert (is_digit x = false); [|congruence].
    destruct Hin as [<-|[<-|[<-|[]]]];
      eapply lower_not_digit; eauto; reflexivity.
Qed.

End Durations.

(** ** The half-price factor *)

Section Factor.

Context {db : UnicodeDB}.

Lemma Float_eqb_eq x y : Float.eqb x y = true -> x = y.
Proof.
  destruct x, y; cbn; try discriminate; intros H.
  - now apply Bool.eqb_prop in H as ->.
  - now apply Bool.eqb_prop in H as ->.
  - reflexivity.
  - apply andb_prop in H as [H He]. apply andb_prop in H as [Hs Hm].
    apply Bool.eqb_prop in Hs. apply Pos.eqb_eq in Hm. apply Z.eqb_eq in He.
    now subst.
Qed.

Lemma forall_upto (P : Z -> bool) (n : nat) :
  forallb P (map Z.of_nat (seq 0 n)) = true ->
  forall m, (0 <= m < Z.of_nat n)%Z -> P m = true.
Proof.
  intros H m Hm. rewrite forallb_forall in H. apply H.
  apply in_map_iff. exists (Z.to_nat m). split; [lia|].
  apply in_seq. lia.
Qed.

Lemma of_int_small m : (0 <= m <= 99)%Z -> Float.of_int m = Ok (to_float m).
Proof.
  intros Hm.
  assert (H : is_finite_of_int m = true).
  { apply (@forall_upto is_finite_of_int 100); [vm_compute; reflexivity|lia]. }
  unfold is_finite_of_int in H. destruct (Float.of_int m); [|discriminate].
  now apply Float_eqb_eq in H as ->.
Qed.

(** The factor is exact: it is the float of [(24 - m) / 2]. *)
Lemma half_price_factor_exact m :
  (0 <= m <= 99)%Z ->
  half_price_factor m
  = binary_normalize Float.prec Float.emax (24 - m) (-1) false.
Proof.
  intros Hm. apply Float_eqb_eq.
  apply (@forall_upto
           (fun m => Float.eqb (half_price_factor m)
                       (binary_normalize Float.prec Float.emax (24 - m) (-1)
                                         false))
           100); [vm_compute; reflexivity|lia].
Qed.

Lemma half_price_factor_agree m :
  (0 <= m <= 99)%Z -> half_price_factor_code m = half_price_factor m.
Proof.
  intros Hm. apply Float_eqb_eq.
  apply (@forall_upto
           (fun m => Float.eqb (half_price_factor_code m) (half_price_factor m))
           100); [vm_compute; reflexivity|lia].
Qed.

End Factor.

(** ** Evaluation of the branches *)

Section Branches.

Context {db : UnicodeDB}.

Lemma full_price_eval w lp sc :
  list_price (self w) = Some lp -> start_cost (self w) = Some sc ->
  full_price w = (Ok (NInt (sc + lp * 12)), w).
Proof.
  intros Hlp Hsc. unfold full_price. rewrite bindM_get_self.
  unfold IntProp_get, values. rewrite Hlp, Hsc. reflexivity.
Qed.

Lemma discounted_reduced c months w r p lp sc :
  re_search reduced_re c = Some r ->
  int_of_str (group 1 r) = Some p -> p <> 0%Z ->
  list_price (self w) = Some lp -> start_cost (self w) = Some sc ->
  discounted c months w
  = (Ok (NInt (months * p + (12 - months) * lp + sc)), w).
Proof.
  intros Hr Hp Hnz Hlp Hsc. unfold discounted. rewrite Hr.
  cbn [py_int]. rewrite Hp, bindM_lift_Ok.
  apply Z.eqb_neq in Hnz. rewrite Hnz, bindM_get_self.
  unfold IntProp_get, values. rewrite Hlp, Hsc.
  repeat (cbn [py_mul py_add]; rewrite bindM_lift_Ok).
  unfold lift. cbn [py_add]. do 3 f_equal. ring.
Qed.

Lemma discounted_half c months w lp sc flp fsc :
  re_search reduced_re c = None
  \/ (exists r, re_search reduced_re c = Some r
                /\ int_of_str (group 1 r) = Some 0%Z) ->
  (0 <= months <= 99)%Z ->
  list_price (self w) = Some lp -> start_cost (self w) = Some sc ->
  Float.of_int lp = Ok flp -> Float.of_int sc = Ok fsc ->
  discounted c months w
  = (Ok (NFloat (Float.add (Float.mul flp (half_price_factor months)) fsc)),
     w).
Proof.
  intros Hr Hm Hlp Hsc Hflp Hfsc.
  assert (Hh :
    (o <- get_self ;;
     a <- lift (py_mul (NInt months) (NFloat Float.half)) ;;
     b <- lift (py_add a (NInt 12)) ;;
     f <- lift (py_sub b (NInt months)) ;;
     x <- lift (py_mul (IntProp_get P_list_price o) f) ;;
     lift (py_add x (IntProp_get P_start_cost o)))%M w
    = (Ok (NFloat (Float.add (Float.mul flp (half_price_factor months)) fsc)),
       w)).
  { rewrite bindM_get_self. unfold IntProp_get, values. rewrite Hlp, Hsc.
    cbn [py_mul]. rewrite (of_int_small Hm). cbn [bind].
    rewrite bindM_lift_Ok. cbn [py_add].
    rewrite (@of_int_small 12) by lia. cbn [bind].
    rewrite bindM_lift_Ok. cbn [py_sub].
    rewrite (of_int_small Hm). cbn [bind].
    rewrite bindM_lift_Ok. cbn [py_mul]. rewrite Hflp. cbn [bind].
    rewrite bindM_lift_Ok. cbn [py_add]. rewrite Hfsc. cbn [bind].
    unfold lift. fold (half_price_factor_code months).
    now rewrite half_price_factor_agree. }
  unfold discounted.
  destruct Hr as [Hr|(r & Hr & Hp)]; rewrite Hr; [exact Hh|].
  cbn [py_int]. rewrite Hp, bindM_lift_Ok. exact Hh.
Qed.

End Branches.

(** ** Text in the Latin-1 range

    On Latin-1 text the functions that consult the character tables give
    the same result whatever the tables are outside the range. *)

Section Latin1Text.

Variables db1 db2 : UnicodeDB.


Lemma decimal_agree c : (c < 256)%N -> @u_decimal db1 c = @u_decimal db2 c.
Proof. intros H. now rewrite !u_decimal_latin1. Qed.


Lemma isspace_agree c : (c < 256)%N -> @u_isspace db1 c = @u_isspace db2 c.
Proof. intros H. now rewrite !u_isspace_latin1. Qed.







Lemma to_ascii_agree c : (c < 256)%N -> @to_ascii db1 c = @to_ascii db2 c.
Proof.
  intros H. unfold to_ascii. now rewrite isspace_agree, decimal_agree.
Qed.

Lemma int_of_str_agree s :
  is_latin1 s = true -> @int_of_str db1 s = @int_of_str db2 s.
Proof.
  intros H. unfold int_of_str.
  replace (map (@to_ascii db1) s) with (map (@to_ascii db2) s); [reflexivity|].
  apply map_ext_in. intros c Hc. symmetry. apply to_ascii_agree.
  unfold is_latin1 in H. rewrite forallb_forall in H.
  now apply N.ltb_lt, H.
Qed.


End Latin1Text.

Section Latin1Eval.

Context {db : UnicodeDB}.

Lemma int_of_str_latin1 s :
  is_latin1 s = true -> int_of_str s = @int_of_str latin1_db s.
Proof. apply int_of_str_agree. Qed.



Lemma duration_of_3 : duration_of (lit "3") = Some 3%Z.
Proof.
  unfold duration_of. rewrite int_of_str_latin1 by reflexivity.
  vm_compute. reflexivity.
Qed.

Lemma duration_of_tre : duration_of (lit "tre") = Some 3%Z.
Proof. reflexivity. Qed.

Lemma int_of_199 : int_of_str (lit "199") = Some 199%Z.
Proof. rewrite int_of_str_latin1 by reflexivity. vm_compute. reflexivity. Qed.

End Latin1Eval.

(** ** The cost formulas *)

Section CostClaims.

Context {db : UnicodeDB}.


(** C1. For an offer whose campaign is absent, with its list price and
    start cost set, [year_cost] returns the integer
    [start_cost + list_price * 12]; nothing is printed and the offer is
    left as it was. *)
Theorem year_cost_no_campaign (o : Offer) (lp sc : Z) :
  campaign o = None ->
  list_price o = Some lp ->
  start_cost o = Some sc ->
  year_cost o = (Ok (NInt (sc + lp * 12)), {| self := o; stdout := [] |}).
Proof.
  intros Hc Hlp Hsc. rewrite year_cost_unfold, Hc. cbv zeta.
  now apply full_price_eval.
Qed.

(** C2, amended. When the leftmost match of the duration pattern in the
    campaign text (a token of one or two digits, or [tre], that begins at
    a word boundary and is followed by [mån], one space allowed between)
    stands for [mo] months (the digits read as a number, the lower-case
    word [tre] as 3) and the leftmost match of the reduced price pattern
    (a maximal run of digits followed by [kr], one space allowed between)
    has the non-zero amount [p], [year_cost] returns the integer
    [mo * p + (12 - mo) * list_price + start_cost] and changes nothing.  In
    particular, when the token of the first is ["3"] (or ["tre"]) and the
    amount of the second is ["199"], it returns
    [3 * 199 + 9 * list_price + start_cost]. *)
Theorem year_cost_reduced_price (o : Offer) (c : pystr) (m r : mstate)
        (lp sc : Z) :
  campaign o = Some c ->
  re_search months_re c = Some m ->
  re_search reduced_re c = Some r ->
  list_price o = Some lp ->
  start_cost o = Some sc ->
  (forall mo p,
      duration_of (group 1 m) = Some mo ->
      int_of_str (group 1 r) = Some p ->
      p <> 0%Z ->
      year_cost o
      = (Ok (NInt (mo * p + (12 - mo) * lp + sc)),
         {| self := o; stdout := [] |}))
  /\ (group 1 m = lit "3" \/ group 1 m = lit "tre" ->
      group 1 r = lit "199" ->
      year_cost o
      = (Ok (NInt (3 * 199 + 9 * lp + sc)), {| self := o; stdout := [] |})).
Proof.
  intros Hc Hm Hr Hlp Hsc.
  assert (G : forall mo p,
      duration_of (group 1 m) = Some mo ->
      int_of_str (group 1 r) = Some p ->
      p <> 0%Z ->
      year_cost o
      = (Ok (NInt (mo * p + (12 - mo) * lp + sc)),
         {| self := o; stdout := [] |})).
  { intros mo p Hd Hp Hnz.
    rewrite year_cost_unfold, Hc. cbv zeta.
    destruct c as [|c0 c]; [discriminate|].
    rewrite Hm. unfold duration_of in Hd.
    destruct (str_eqb (group 1 m) (lit "tre")).
    - injection Hd as <-. eapply discounted_reduced; eauto.
    - rewrite Hd. eapply discounted_reduced; eauto. }
  split; [exact G|].
  intros Hg Hg'.
  apply (G 3%Z 199%Z).
  - destruct Hg as [-> | ->]; [apply duration_of_3|apply duration_of_tre].
  - rewrite Hg'. apply int_of_199.
  - discriminate.
Qed.

(** C3, amended. When the campaign text yields a duration [mo] (through
    the duration pattern, or 6 through the phrase [ett halvår] when the
    pattern matches nowhere) and the reduced price pattern matches nowhere
    or its leftmost match has the amount zero, [year_cost] returns the
    float [list_price * (mo * 0.5 + (12 - mo)) + start_cost], computed in
    binary64, for a list price and a start cost that have a float; nothing
    else changes. *)
Theorem year_cost_half_price (o : Offer) (c : pystr) (mo lp sc : Z)
        (flp fsc : spec_float) :
  campaign o = Some c ->
  (exists m, re_search months_re c = Some m
             /\ duration_of (group 1 m) = Some mo)
  \/ (re_search months_re c = None
      /\ str_in (lit "ett halvår") c = true /\ mo = 6%Z) ->
  re_search reduced_re c = None
  \/ (exists r, re_search reduced_re c = Some r
                /\ int_of_str (group 1 r) = Some 0%Z) ->
  list_price o = Some lp ->
  start_cost o = Some sc ->
  Float.of_int lp = Ok flp ->
  Float.of_int sc = Ok fsc ->
  year_cost o
  = (Ok (NFloat (Float.add (Float.mul flp (half_price_factor mo)) fsc)),
     {| self := o; stdout := [] |}).
Proof.
  intros Hc Hd Hr Hlp Hsc Hflp Hfsc.
  rewrite year_cost_unfold, Hc. cbv zeta.
  destruct c as [|c0 c].
  { destruct Hd as [(m & Hm & _)|(_ & Hin & _)]; discriminate. }
  destruct Hd as [(m & Hm & Hd)|(Hm & Hin & ->)]; rewrite Hm.
  - pose proof (duration_range (search_months_group _ Hm) Hd) as Hrange.
    unfold duration_of in Hd.
    destruct (str_eqb (group 1 m) (lit "tre")).
    + injection Hd as <-. eapply discounted_half; eauto.
    + rewrite Hd. eapply discounted_half; eauto.
  - rewrite Hin. eapply discounted_half; eauto. lia.
Qed.


End CostClaims.

(** ** The failure marker *)

Section Marker.

Context {db : UnicodeDB}.

Lemma match_here_months_first prev x rest :
  cannot_start x -> match_here months_re prev (x :: rest) = None.
Proof.
  intros [Hd Hl].
  destruct (match_here months_re prev (x :: rest)) as [m|] eqn:E;
    [|reflexivity].
  exfalso. unfold match_here in E.
  apply rmatch_sound in E as (w & st' & Hs & _).
  unfold months_re, wordI, lit in Hs. cbn in Hs.
  inv_steps; cbn in *;
    match goal with
    | H : x :: rest = _ :: _ |- _ => injection H as <- <-
    end; congruence.
Qed.

Lemma search_from_skip pre :
  Forall cannot_start pre ->
  forall prev c,
    search_from months_re prev (pre ++ c)
    = search_from months_re (last_char prev pre) c.
Proof.
  induction 1 as [|x pre Hx Hpre IH]; intros prev c.
  - reflexivity.
  - cbn [app search_from last_char].
    now rewrite (match_here_months_first _ _ Hx), IH.
Qed.

Lemma match_here_months_prev p1 p2 c :
  is_word_opt p1 = is_word_opt p2 ->
  match_here months_re p1 c = match_here months_re p2 c.
Proof.
  intros H. unfold match_here, months_re. cbn [rmatch].
  unfold at_boundary. cbn [ms_prev ms_rest]. rewrite H.
  destruct (xorb _ _); [|reflexivity].
  destruct c as [|x c]; reflexivity.
Qed.

Lemma search_from_months_prev p1 p2 c :
  is_word_opt p1 = is_word_opt p2 ->
  search_from months_re p1 c = search_from months_re p2 c.
Proof.
  intros H. destruct c; cbn [search_from];
    now rewrite (@match_here_months_prev p1 p2 _ H).
Qed.

Lemma latin1_cannot_start x :
  (x <? 256)%N && match Latin1.decimal x with Some _ => false | None => true end
  && negb (Latin1.lower x =? 116)%N = true ->
  cannot_start x.
Proof.
  intros H. apply andb_prop in H as [H Hl]. apply andb_prop in H as [Hx Hd].
  apply N.ltb_lt in Hx. unfold cannot_start, is_digit.
  rewrite u_decimal_latin1, u_lower_latin1 by assumption.
  split.
  - destruct (Latin1.decimal x); [discriminate|reflexivity].
  - apply negb_true_iff, N.eqb_neq in Hl. exact Hl.
Qed.

Lemma marker_cannot_start : Forall cannot_start failure_marker.
Proof.
  apply Forall_forall. intros x Hx. apply latin1_cannot_start.
  revert x Hx. apply forallb_forall. vm_compute. reflexivity.
Qed.

Lemma search_months_marker c :
  re_search months_re (failure_marker ++ c) = re_search months_re c.
Proof.
  unfold re_search. rewrite (search_from_skip marker_cannot_start).
  apply search_from_months_prev. cbn.
  unfold is_word. rewrite u_isalnum_latin1 by reflexivity. reflexivity.
Qed.

Lemma halvar_marker c :
  str_in (lit "ett halvår") (failure_marker ++ c)
  = str_in (lit "ett halvår") c.
Proof. reflexivity. Qed.

Lemma unresolved_marker c : unresolved c -> unresolved (failure_marker ++ c).
Proof.
  intros (Hne & Hm & Hin). repeat split.
  - discriminate.
  - now rewrite search_months_marker.
  - now rewrite halvar_marker.
Qed.

End Marker.

(** ** Reading the property again *)

Section Again.

Context {db : UnicodeDB}.


End Again.

(** ** Assignment to an integer field *)

Lemma bind_Ok_inv A B (r : result A) (k : A -> result B) b :
  bind r k = Ok b -> exists a, r = Ok a /\ k a = Ok b.
Proof. destruct r; cbn; [eauto|discriminate]. Qed.

Lemma bind_Raise_inv A B (r : result A) (k : A -> result B) e :
  bind r k = Raise e -> r = Raise e \/ exists a, r = Ok a /\ k a = Raise e.
Proof. destruct r; cbn; [eauto|intros [= <-]; auto]. Qed.

Lemma index_builtin A (l : list A) i e : index l i = Raise e -> builtin e.
Proof.
  unfold index. destruct (nth_error l i); [discriminate|].
  now intros [= <-].
Qed.

Lemma getitem_builtin d key e : getitem d key = Raise e -> builtin e.
Proof.
  induction d as [|[k v] d IH]; cbn.
  - now intros [= <-].
  - destruct (str_eqb k key); [discriminate|exact IH].
Qed.

Section Assign.
Context {db : UnicodeDB}.

Lemma py_int_raises v e :
  py_int v = Raise e ->
  e = TypeError \/ e = ValueError_int v \/ e = OverflowError.
Proof.
  destruct v as [|z|f|s]; cbn.
  - intros [= <-]; auto.
  - discriminate.
  - destruct f; cbn; try discriminate; intros [= <-]; auto.
  - destruct (int_of_str s); [discriminate|]. intros [= <-]; auto.
Qed.

Lemma py_int_builtin v e : py_int v = Raise e -> builtin e.
Proof.
  intros H. apply py_int_raises in H as [-> | [-> | ->]]; exact I.
Qed.

Lemma IntProp_set_Ok p o v o' :
  IntProp_set p o v = Ok o' -> exists z, py_int v = Ok z /\ o' = store p z o.
Proof.
  unfold IntProp_set. intros H.
  apply bind_Ok_inv in H as (z & Hz & E). injection E as <-. eauto.
Qed.

Lemma IntProp_set_Raise p o v e :
  IntProp_set p o v = Raise e -> py_int v = Raise e.
Proof.
  unfold IntProp_set. destruct (py_int v); cbn; [discriminate|].
  now intros [= <-].
Qed.

(** C9, amended. An assignment to one of the four integer fields converts
    the value with [int] at that moment: when the conversion succeeds the
    field holds the integer; when it fails the assignment raises what
    [int] raised, a [TypeError], a [ValueError] that carries the value, or
    an [OverflowError]: an exception of the interpreter that is the same
    whichever field is assigned, so that it does not tell the field. *)
Theorem IntProp_set_converts (p : intprop) (o : Offer) (v : pyval) :
  match py_int v with
  | Ok z =>
      IntProp_set p o v = Ok (store p z o)
      /\ values p (store p z o) = Some z
  | Raise e =>
      IntProp_set p o v = Raise e
      /\ (e = TypeError \/ e = ValueError_int v \/ e = OverflowError)
      /\ builtin e
      /\ forall p' o', IntProp_set p' o' v = Raise e
  end.
Proof.
  unfold IntProp_set. destruct (py_int v) as [z|e] eqn:E; cbn.
  - split; [reflexivity|]. now destruct p.
  - repeat split.
    + now apply py_int_raises.
    + now apply py_int_builtin in E.
Qed.

End Assign.

(** ** The errors of [parse_page] *)

Ltac raise_split H :=
  cbv beta zeta in H;
  lazymatch type of H with
  | bind _ _ = Raise _ =>
      let x := fresh "x" in
      apply bind_Raise_inv in H as [H|(x & _ & H)];
      [|raise_split H]
  | _ => idtac
  end.

Section ParseErrors.
Context {db : UnicodeDB}.

Lemma search_attr_builtin r x e : search_attr r x = Raise e -> builtin e.
Proof. destruct x; cbn; [discriminate|]. now intros [= <-]. Qed.

Lemma IntProp_set_builtin p o v e : IntProp_set p o v = Raise e -> builtin e.
Proof. intros H. eapply py_int_builtin, IntProp_set_Raise, H. Qed.

Lemma resolve_speed_builtin o e : resolve_speed o = Raise e -> builtin e.
Proof.
  unfold resolve_speed. intros H. raise_split H.
  - eapply search_attr_builtin; eauto.
  - match type of H with
    | match ?x with _ => _ end = _ => destruct x
    end; [discriminate|]. eapply search_attr_builtin; eauto.
  - match type of H with
    | match ?x with _ => _ end = _ => destruct x
    end.
    + raise_split H; eapply IntProp_set_builtin; eauto.
    + raise_split H; [eapply search_attr_builtin; eauto|].
      match type of H with
      | match ?x with _ => _ end = _ => destruct x
      end.
      * raise_split H; eapply IntProp_set_builtin; eauto.
      * now injection H as <-.
Qed.

Lemma read_conditions_builtin a o e :
  read_conditions a o = Raise e -> builtin e.
Proof.
  unfold read_conditions. intros H. raise_split H.
  - eapply index_builtin; eauto.
  - match type of H with
    | match ?x with _ => _ end = _ =>
        destruct x as [|s [|b [|l [|y lines]]]]
    end; try (now injection H as <-).
    raise_split H;
      eauto using index_builtin, IntProp_set_builtin.
    discriminate.
Qed.

Lemma parse_head_builtin a e : parse_head a = Raise e -> builtin e.
Proof.
  unfold parse_head. intros H. raise_split H;
    eauto using index_builtin, getitem_builtin, IntProp_set_builtin,
                resolve_speed_builtin.
  destruct (list_in (lit "campaign") (classes a)); [|discriminate].
  raise_split H; eauto using index_builtin. discriminate.
Qed.

Lemma parse_offer_builtin a e : parse_offer a = Raise e -> builtin e.
Proof.
  unfold parse_offer. intros H. raise_split H.
  - eapply parse_head_builtin; eauto.
  - eapply read_conditions_builtin; eauto.
Qed.

(** A conditions block that does not split into three lines makes the
    extraction of its offer element fail. *)
Lemma read_conditions_not_three a o lines :
  conditions_lines a = Some lines -> length lines <> 3 ->
  read_conditions a o = Raise (ValueError_unpack 3 (length lines)).
Proof.
  unfold conditions_lines, read_conditions, index.
  destruct (sel_conditions a) as [|t ts]; [discriminate|].
  intros [= <-] Hn. cbn [nth_error bind].
  destruct (split_on NEWLINE (strip (get_text t)))
    as [|s [|b [|l [|x lines]]]]; cbn in *; congruence.
Qed.

Lemma parse_offer_not_three a lines :
  conditions_lines a = Some lines -> length lines <> 3 ->
  exists e, parse_offer a = Raise e /\ builtin e
            /\ (forall o, parse_head a = Ok o ->
                          e = ValueError_unpack 3 (length lines)).
Proof.
  intros Hl Hn. unfold parse_offer.
  destruct (parse_head a) as [o|e] eqn:E; cbn [bind].
  - rewrite (read_conditions_not_three _ _ Hl Hn).
    eexists. repeat split; auto.
  - exists e. repeat split; [now apply parse_head_builtin in E|discriminate].
Qed.

Lemma parse_loop_app pre post offers :
  parse_loop (pre ++ post) offers
  = bind (parse_loop pre offers) (parse_loop post).
Proof.
  revert offers. induction pre as [|a pre IH]; intros offers; cbn.
  - reflexivity.
  - destruct (parse_offer a); cbn; auto.
Qed.

Lemma parse_loop_builtin doc offers e :
  parse_loop doc offers = Raise e -> builtin e.
Proof.
  revert offers. induction doc as [|a doc IH]; intros offers; cbn.
  - discriminate.
  - destruct (parse_offer a) eqn:E; cbn; [apply IH|].
    intros [= <-]. now apply parse_offer_builtin in E.
Qed.

Lemma parse_loop_fails doc a offers e :
  In a doc -> parse_offer a = Raise e ->
  exists e', parse_loop doc offers = Raise e'.
Proof.
  revert offers. induction doc as [|b doc IH]; intros offers Hin Ha;
    [contradiction|].
  cbn. destruct Hin as [<-|Hin].
  - rewrite Ha. cbn. eauto.
  - destruct (parse_offer b); cbn; eauto.
Qed.

(** C7, amended. When some offer element of the document has a conditions
    block that, trimmed, splits into a number of lines other than three,
    [parse_page] raises an exception and returns no collection, not even
    of the elements before it.  The exception is one of the interpreter's:
    when the elements before it are extracted and the earlier steps of this
    one succeed, it is the [ValueError] of the tuple unpacking. *)
Theorem parse_page_conditions_not_three (doc : list article) (a : article)
        (lines : list pystr) :
  In a doc ->
  conditions_lines a = Some lines ->
  length lines <> 3 ->
  (exists e, parse_page doc = Raise e /\ builtin e)
  /\ (forall pre post offers o,
        doc = pre ++ a :: post ->
        parse_loop pre [] = Ok offers ->
        parse_head a = Ok o ->
        parse_page doc = Raise (ValueError_unpack 3 (length lines))).
Proof.
  intros Hin Hl Hn.
  destruct (parse_offer_not_three _ Hl Hn) as (e & He & _ & Hhead).
  split.
  - destruct (parse_loop_fails doc a [] Hin He) as (e' & E).
    exists e'. split; [exact E|]. eapply parse_loop_builtin; eauto.
  - intros pre post offers o -> Hpre Ho.
    unfold parse_page. rewrite parse_loop_app, Hpre. cbn.
    rewrite He. cbn. f_equal. eauto.
Qed.

End ParseErrors.

(** ** The speeds *)

Section Speed.
Context {db : UnicodeDB}.

(** A successful match, read off [rsteps]. *)
Lemma match_here_sound r prev s m :
  match_here r prev s = Some m ->
  exists w st',
    rsteps r {| ms_prev := prev; ms_rest := s; ms_pos := 0; ms_groups := [] |}
           w st'
    /\ m = set_group 0 w st'.
Proof.
  unfold match_here. intros H.
  apply rmatch_sound in H as (w & st' & Hs & E). injection E as <-.
  exists w, st'. split; [assumption|]. f_equal.
  destruct (rsteps_consumes Hs) as [E P]. cbn in E, P.
  rewrite E, P, firstn_app, Nat.sub_diag, firstn_all. cbn. apply app_nil_r.
Qed.

Lemma plus_digit_inv st w st' :
  rsteps (Plus Digit) st w st' ->
  w <> [] /\ all_digits w /\ ms_groups st' = ms_groups st.
Proof. apply (@rsteps_plus_chars _ Digit is_digit st w st' eq_refl). Qed.

Lemma match_here_speed_groups prev s m :
  match_here speed_re prev s = Some m ->
  (group 1 m <> [] /\ all_digits (group 1 m))
  /\ (group 2 m <> [] /\ all_digits (group 2 m)).
Proof.
  intros H. apply match_here_sound in H as (w & st' & Hs & ->).
  unfold speed_re in Hs. inv_steps.
  repeat match goal with
  | H : rsteps (Plus Digit) _ _ _ |- _ =>
      apply plus_digit_inv in H as (? & ? & ?)
  end.
  unfold group. cbn in *.
  repeat match goal with H : ms_groups _ = _ |- _ => rewrite H end.
  cbn. auto.
Qed.

Lemma search_speed_groups s m :
  re_search speed_re s = Some m ->
  (group 1 m <> [] /\ all_digits (group 1 m))
  /\ (group 2 m <> [] /\ all_digits (group 2 m)).
Proof.
  intros H. apply search_from_sound in H as (prev & s' & H).
  eapply match_here_speed_groups; eauto.
Qed.

Lemma search_digits_group s m :
  re_search digits_re s = Some m ->
  group 0 m <> [] /\ all_digits (group 0 m).
Proof.
  intros H. apply search_from_sound in H as (prev & s' & H).
  apply match_here_sound in H as (w & st' & Hs & ->).
  apply plus_digit_inv in Hs as (? & ? & ?). unfold group. cbn. auto.
Qed.

Lemma IntProp_set_digits p o w :
  w <> [] -> all_digits w ->
  IntProp_set p o (VStr w) = Ok (store p (digits_value w) o).
Proof.
  intros Hne Hw. unfold IntProp_set. cbn [py_int].
  now rewrite (int_of_digits Hne Hw).
Qed.




End Speed.

(** ** The provider *)

Lemma split_on_first sep p rest :
  Forall (fun c => c <> sep) p ->
  split_on sep (p ++ sep :: rest) = p :: split_on sep rest.
Proof.
  induction 1 as [|c p Hc Hp IH]; cbn [app split_on].
  - unfold char_eqb. now rewrite N.eqb_refl.
  - unfold char_eqb at 1. apply N.eqb_neq in Hc. rewrite Hc, IH. reflexivity.
Qed.

Lemma isp_of_href_one_before p :
  no_slash p ->
  isp_of_href (p ++ lit "/kungsbackastadsnat/internet/privat/bahnhof/xyz")
  = Ok (lit "privat").
Proof.
  intros H. unfold isp_of_href.
  set (s := lit "/kungsbackastadsnat/internet/privat/bahnhof/xyz").
  vm_compute in s. subst s.
  rewrite (split_on_first _ H).
  set (l := split_on SLASH _). vm_compute in l. subst l.
  set (r := lit "privat"). vm_compute in r. subst r.
  reflexivity.
Qed.

Ltac ok_split H :=
  cbv beta zeta in H;
  lazymatch type of H with
  | bind _ _ = Ok _ =>
      let x := fresh "x" in
      let E := fresh "E" in
      apply bind_Ok_inv in H as (x & E & H);
      ok_split H
  | _ => idtac
  end.

Section Isp.
Context {db : UnicodeDB}.

Lemma index_Ok A (l : list A) i a : index l i = Ok a -> nth_error l i = Some a.
Proof. unfold index. destruct (nth_error l i); [now intros [= ->]|discriminate]. Qed.

Lemma IntProp_set_isp p o v o' : IntProp_set p o v = Ok o' -> isp o' = isp o.
Proof. intros H. apply IntProp_set_Ok in H as (z & _ & ->). reflexivity. Qed.

Lemma resolve_speed_isp o o' : resolve_speed o = Ok o' -> isp o' = isp o.
Proof.
  unfold resolve_speed. intros H. ok_split H.
  repeat match type of H with
  | match ?x with _ => _ end = _ => destruct x; try discriminate; ok_split H
  end;
  repeat match goal with
  | E : IntProp_set _ _ _ = Ok _ |- _ => apply IntProp_set_isp in E
  end; congruence.
Qed.

Lemma read_conditions_isp a o o' :
  read_conditions a o = Ok o' -> isp o' = isp o.
Proof.
  unfold read_conditions. intros H. ok_split H.
  match type of H with
  | match ?x with _ => _ end = _ =>
      destruct x as [|s [|b [|l [|y lines]]]]; try discriminate
  end.
  ok_split H. injection H as <-.
  match goal with
  | E : IntProp_set _ _ _ = Ok _ |- _ => apply IntProp_set_isp in E
  end. cbn. congruence.
Qed.

Lemma parse_head_isp a o :
  parse_head a = Ok o ->
  exists t href seg,
    nth_error (sel_isp_link a) 0 = Some t
    /\ getitem (attrs t) (lit "href") = Ok href
    /\ nth_error (split_on SLASH href) 3 = Some seg
    /\ isp o = Some seg.
Proof.
  unfold parse_head. intros H. ok_split H.
  match goal with
  | E1 : index (sel_isp_link a) 0 = Ok ?t,
    E2 : getitem (attrs ?t) _ = Ok ?h,
    E3 : isp_of_href ?h = Ok ?s |- _ =>
      exists t, h, s; apply index_Ok in E1; apply index_Ok in E3
  end.
  repeat split; try assumption.
  match goal with
  | E : resolve_speed _ = Ok _ |- _ => apply resolve_speed_isp in E; cbn in E
  end.
  match goal with
  | E : IntProp_set _ _ _ = Ok _ |- _ => apply IntProp_set_isp in E
  end.
  destruct (list_in (lit "campaign") (classes a)).
  - ok_split H. injection H as <-. cbn. congruence.
  - injection H as <-. congruence.
Qed.

Lemma parse_offer_isp a o :
  parse_offer a = Ok o ->
  exists t href seg,
    nth_error (sel_isp_link a) 0 = Some t
    /\ getitem (attrs t) (lit "href") = Ok href
    /\ nth_error (split_on SLASH href) 3 = Some seg
    /\ isp o = Some seg.
Proof.
  unfold parse_offer. intros H. ok_split H.
  match goal with
  | E : parse_head a = Ok _ |- _ =>
      apply parse_head_isp in E as (t & href & seg & H1 & H2 & H3 & H4)
  end.
  apply read_conditions_isp in H. exists t, href, seg.
  repeat split; try assumption. congruence.
Qed.

(** C5, amended. The provider of an extracted offer is the element at
    zero-based index 3 of the provider link's [href] split on ['/'].  In
    particular for the link target
    ["kungsbackastadsnat/internet/privat/bahnhof/xyz"], with nothing
    before its first segment, the provider is ["bahnhof"]; with one
    separator-free piece and a ['/'] in front of it (as in
    [".../kungsbackastadsnat/..."] or ["/kungsbackastadsnat/..."]) it is
    ["privat"]. *)
Theorem isp_is_index_3 (a : article) (o : Offer) :
  parse_offer a = Ok o ->
  exists t href seg,
    nth_error (sel_isp_link a) 0 = Some t
    /\ getitem (attrs t) (lit "href") = Ok href
    /\ nth_error (split_on SLASH href) 3 = Some seg
    /\ isp o = Some seg
    /\ (href = lit "kungsbackastadsnat/internet/privat/bahnhof/xyz" ->
        seg = lit "bahnhof")
    /\ (forall p,
          no_slash p ->
          href = p ++ lit "/kungsbackastadsnat/internet/privat/bahnhof/xyz" ->
          seg = lit "privat").
Proof.
  intros H.
  destruct (parse_offer_isp _ H) as (t & href & seg & H1 & H2 & H3 & H4).
  exists t, href, seg. repeat split; try assumption.
  - intros ->. vm_compute in H3. now injection H3 as <-.
  - intros p Hp ->. pose proof (isp_of_href_one_before Hp) as E.
    unfold isp_of_href, index in E. rewrite H3 in E. now injection E as ->.
Qed.

End Isp.

(** ** The stages of an extraction *)

Section Stages.

Context {db : UnicodeDB}.

Lemma resolve_speed_texts o o' :
  resolve_speed o = Ok o' ->
  name o' = name o /\ banner o' = banner o /\ isp o' = isp o.
Proof.
  unfold resolve_speed. intros H. ok_split H.
  repeat match type of H with
  | match ?x with _ => _ end = _ => destruct x; try discriminate; ok_split H
  end;
  repeat match goal with
  | E : IntProp_set _ _ _ = Ok _ |- _ =>
      apply IntProp_set_Ok in E as (? & _ & ->)
  end; repeat split.
Qed.

Lemma read_conditions_keeps a o o' :
  read_conditions a o = Ok o' -> keeps_head o o'.
Proof.
  unfold read_conditions. intros H. ok_split H.
  match type of H with
  | match ?x with _ => _ end = _ =>
      destruct x as [|s [|b [|l [|y lines]]]]; try discriminate
  end.
  ok_split H. injection H as <-.
  match goal with
  | E : IntProp_set _ _ _ = Ok _ |- _ =>
      apply IntProp_set_Ok in E as (? & _ & ->)
  end. repeat split.
Qed.

(** The stages of the extraction of one offer element. *)
Lemma parse_offer_stages a o :
  parse_offer a = Ok o ->
  exists tb tn tl href seg o1,
    nth_error (sel_banner a) 0 = Some tb
    /\ nth_error (sel_product_name a) 0 = Some tn
    /\ nth_error (sel_isp_link a) 0 = Some tl
    /\ getitem (attrs tl) (lit "href") = Ok href
    /\ nth_error (split_on SLASH href) 3 = Some seg
    /\ resolve_speed
         (set_isp seg
            (set_name (get_text tn)
               (set_banner (strip (get_text tb)) Offer_init))) = Ok o1
    /\ keeps_head o1 o.
Proof.
  unfold parse_offer. intros H. ok_split H.
  apply read_conditions_keeps in H.
  match goal with E : parse_head a = Ok _ |- _ => rename E into Hh end.
  unfold parse_head in Hh. ok_split Hh.
  repeat match goal with
  | E : index _ _ = Ok _ |- _ => apply index_Ok in E
  | E : isp_of_href _ = Ok _ |- _ => unfold isp_of_href in E
  end.
  match goal with
  | E : resolve_speed _ = Ok ?o1 |- _ =>
      do 5 eexists; exists o1; repeat (split; [eassumption|])
  end.
  match goal with
  | E : IntProp_set _ _ _ = Ok _ |- _ =>
      apply IntProp_set_Ok in E as (? & _ & ->)
  end.
  destruct (list_in (lit "campaign") (classes a)).
  - ok_split Hh. injection Hh as <-.
    destruct H as (? & ? & ? & ? & ?). repeat split; assumption.
  - injection Hh as <-.
    destruct H as (? & ? & ? & ? & ?). repeat split; assumption.
Qed.

End Stages.

(** ** The cost formulas on examples *)

Lemma year_cost_no_campaign_witness :
  year_cost (example_offer None 299 500)
  = (Ok (NInt (500 + 299 * 12)),
     {| self := example_offer None 299 500; stdout := [] |}).
Proof.
  apply (@year_cost_no_campaign latin1_db (example_offer None 299 500) 299 500);
    reflexivity.
Defined.

Lemma year_cost_reduced_price_witness :
  year_cost (example_offer (Some (lit "Halva priset i 3 mån, 199kr")) 299 500)
  = (Ok (NInt (3 * 199 + 9 * 299 + 500)),
     {| self := example_offer (Some (lit "Halva priset i 3 mån, 199kr"))
                              299 500;
        stdout := [] |}).
Proof.
  pose proof
    (fun m r Hm Hr =>
       proj2 (@year_cost_reduced_price latin1_db
                (example_offer (Some (lit "Halva priset i 3 mån, 199kr"))
                               299 500)
                _ m r 299 500 eq_refl Hm Hr eq_refl eq_refl)) as W.
  eapply W.
  - vm_compute. reflexivity.
  - vm_compute. reflexivity.
  - left. vm_compute. reflexivity.
  - vm_compute. reflexivity.
Defined.

(** C2 as it is stated fails.  The first text below contains ["3 mån"]
    and ["199kr"], yet its duration token is ["13 mån"], so that
    [year_cost] is [13 * 199 - 100], not [3 * 199 + 9 * 100].  In the
    second the digit follows a letter: no token begins at a word boundary,
    and the offer is priced in full. *)
Lemma year_cost_3_man_199kr_counterexample :
  let o := example_offer (Some (lit "13 mån 199kr")) 100 0 in
  let o' := example_offer (Some (lit "x3 mån 199kr")) 100 0 in
  str_in (lit "3 mån") (lit "13 mån 199kr") = true
  /\ str_in (lit "199kr") (lit "13 mån 199kr") = true
  /\ fst (year_cost o) = Ok (NInt 2487)
  /\ fst (year_cost o) <> Ok (NInt (3 * 199 + 9 * 100 + 0))
  /\ str_in (lit "3 mån") (lit "x3 mån 199kr") = true
  /\ str_in (lit "199kr") (lit "x3 mån 199kr") = true
  /\ fst (year_cost o') = Ok (NInt 1200)
  /\ fst (year_cost o') <> Ok (NInt (3 * 199 + 9 * 100 + 0)).
Proof.
  cbv zeta. repeat split; try (vm_compute; reflexivity);
    vm_compute; discriminate.
Qed.

(** The upper-case word is matched by the pattern but is not the string
    compared with on line 59: [int] is applied to it and raises. *)
Example year_cost_upper_case_tre :
  fst (year_cost (example_offer (Some (lit "Tre mån 199kr")) 100 0))
  = Raise (ValueError_int (VStr (lit "Tre"))).
Proof. vm_compute. reflexivity. Qed.

Lemma year_cost_half_price_witness :
  year_cost (example_offer (Some (lit "Halva priset i ett halvår")) 299 0)
  = (Ok (NFloat (Float.add (Float.mul (to_float 299) (half_price_factor 6))
                           (to_float 0))),
     {| self := example_offer (Some (lit "Halva priset i ett halvår")) 299 0;
        stdout := [] |}).
Proof.
  eapply (@year_cost_half_price latin1_db
            (example_offer (Some (lit "Halva priset i ett halvår")) 299 0)
            _ 6 299 0).
  - reflexivity.
  - right. repeat split; vm_compute; reflexivity.
  - left. vm_compute. reflexivity.
  - reflexivity.
  - reflexivity.
  - vm_compute. reflexivity.
  - vm_compute. reflexivity.
Defined.

(** C3 as it is stated fails: the text below has the duration 3 and
    contains the price token ["0 kr"], whose amount is zero, but the
    leftmost price token is ["199 kr"], so that [year_cost] is the integer
    [3 * 199 + 9 * 399], not the float of [399 * 10.5]. *)
Lemma year_cost_zero_price_counterexample :
  let pre := lit "199 kr/mån i 3 mån, " in
  let suf := lit "0 kr i startavgift" in
  let o := example_offer (Some (pre ++ suf)) 399 0 in
  (exists m, re_search months_re (pre ++ suf) = Some m
             /\ duration_of (group 1 m) = Some 3%Z)
  /\ (exists r, match_here reduced_re (last_char None pre) suf = Some r
                /\ group 0 r = lit "0 kr"
                /\ int_of_str (group 1 r) = Some 0%Z)
  /\ fst (year_cost o) = Ok (NInt (3 * 199 + 9 * 399 + 0))
  /\ fst (year_cost o)
     <> Ok (NFloat (Float.add (Float.mul (to_float 399) (half_price_factor 3))
                             (to_float 0))).
Proof.
  cbv zeta. split; [|split; [|split]].
  - eexists. split; vm_compute; reflexivity.
  - eexists. split; [vm_compute; reflexivity|].
    split; vm_compute; reflexivity.
  - vm_compute. reflexivity.
  - vm_compute. discriminate.
Qed.



(** ** Extraction on examples *)

Lemma isp_is_index_3_witness :
  exists t href seg,
    nth_error (sel_isp_link (example_article bahnhof_href three_lines)) 0
    = Some t
    /\ getitem (attrs t) (lit "href") = Ok href
    /\ nth_error (split_on SLASH href) 3 = Some seg
    /\ isp example_parsed_offer = Some seg
    /\ (href = lit "kungsbackastadsnat/internet/privat/bahnhof/xyz" ->
        seg = lit "bahnhof")
    /\ (forall p,
          no_slash p ->
          href = p ++ lit "/kungsbackastadsnat/internet/privat/bahnhof/xyz" ->
          seg = lit "privat").
Proof.
  apply (@isp_is_index_3 latin1_db
           (example_article bahnhof_href three_lines) example_parsed_offer).
  vm_compute. reflexivity.
Defined.

(** C5 as it is stated fails: with the link target of the claim, whose
    first piece is ["..."], the provider extracted is ["privat"]; so it is
    for the target that begins with ['/'], and for the full address it is
    ["kungsbackastadsnat"]. *)
Lemma isp_bahnhof_counterexample :
  (exists o,
      parse_offer
        (example_article
           (lit ".../kungsbackastadsnat/internet/privat/bahnhof/xyz")
           three_lines) = Ok o
      /\ isp o = Some (lit "privat")
      /\ isp o <> Some (lit "bahnhof"))
  /\ isp_of_href (lit "/kungsbackastadsnat/internet/privat/bahnhof/xyz")
     = Ok (lit "privat")
  /\ isp_of_href
       (lit "http://kungsbacka.openuniverse.se/kungsbackastadsnat/internet/privat/bahnhof/xyz")
     = Ok (lit "kungsbackastadsnat").
Proof.
  split; [|split; vm_compute; reflexivity].
  eexists. split; [vm_compute; reflexivity|].
  split; [vm_compute; reflexivity|]. vm_compute. discriminate.
Qed.


(** A document of two offers, one with a campaign, gives two records in
    document order. *)
Example parse_page_example_document :
  exists o1 o2,
    parse_page example_document = Ok [o1; o2]
    /\ campaign o1 = Some (lit "Halva priset i 3 mån, 199kr")
    /\ campaign o2 = None
    /\ o2 = example_parsed_offer
    /\ fst (year_cost o1) = Ok (NInt (3 * 199 + 9 * 399 + 500))
    /\ fst (year_cost o2) = Ok (NInt (500 + 299 * 12)).
Proof.
  do 2 eexists. split; [vm_compute; reflexivity|].
  repeat split; vm_compute; reflexivity.
Qed.

Lemma parse_page_conditions_not_three_witness :
  (exists e, parse_page two_line_document = Raise e /\ builtin e)
  /\ (forall pre post offers o,
        two_line_document
        = pre ++ example_article bahnhof_href two_lines :: post ->
        parse_loop pre [] = Ok offers ->
        parse_head (example_article bahnhof_href two_lines) = Ok o ->
        parse_page two_line_document = Raise (ValueError_unpack 3 2)).
Proof.
  apply (@parse_page_conditions_not_three latin1_db two_line_document
           (example_article bahnhof_href two_lines)
           [lit "Startavgift: 500 kr"; lit "Bindningstid: 12 mån"]).
  - right. left. reflexivity.
  - vm_compute. reflexivity.
  - cbn. lia.
Defined.

(** C7 as it is stated fails: for the document whose second offer has a
    conditions block of two lines, no collection is returned, but what is
    raised is the interpreter's [ValueError], not a
    [FieldExtractionError]. *)
Lemma parse_page_two_lines_counterexample :
  conditions_lines (example_article bahnhof_href two_lines)
  = Some [lit "Startavgift: 500 kr"; lit "Bindningstid: 12 mån"]
  /\ parse_page two_line_document = Raise (ValueError_unpack 3 2)
  /\ forall f, parse_page two_line_document <> Raise (FieldExtractionError f).
Proof.
  repeat split; try (vm_compute; reflexivity).
  intros f. vm_compute. discriminate.
Qed.

(** C9 as it is stated fails: a price text that is no number makes the
    assignment raise the interpreter's [ValueError], which carries the text
    but is the same for another field; no [MalformedFieldError] arises. *)
Lemma IntProp_set_malformed_counterexample :
  IntProp_set P_list_price Offer_init (VStr (lit "299:-"))
  = Raise (ValueError_int (VStr (lit "299:-")))
  /\ IntProp_set P_start_cost Offer_init (VStr (lit "299:-"))
     = Raise (ValueError_int (VStr (lit "299:-")))
  /\ forall f raw,
       IntProp_set P_list_price Offer_init (VStr (lit "299:-"))
       <> Raise (MalformedFieldError f raw).
Proof.
  repeat split; try (vm_compute; reflexivity).
  intros f raw. vm_compute. discriminate.
Qed.

(** * Further properties *)

(** ** Strings and arithmetic *)

Lemma str_eqb_eq (a b : pystr) : str_eqb a b = true -> a = b.
Proof.
  revert b. induction a as [|x a IH]; intros [|y b]; cbn;
    try discriminate; auto.
  intros H. apply andb_prop in H as [H1 H2].
  apply char_eqb_eq in H1. subst. f_equal. auto.
Qed.

Lemma of_int_raises z e : Float.of_int z = Raise e -> e = OverflowError.
Proof.
  unfold Float.of_int.
  destruct (binary_normalize Float.prec Float.emax z 0 false);
    try discriminate; now intros [= <-].
Qed.

Ltac arith_raises :=
  intros a b e; unfold operand_unset;
  destruct a as [|x|f], b as [|y|g]; cbn;
  try discriminate; try (intros [= <-]; now auto);
  match goal with
  | |- context [Float.of_int ?z] =>
      let E := fresh "E" in
      destruct (Float.of_int z) eqn:E; cbn; [discriminate|];
      intros [= <-]; right; eapply of_int_raises; eauto
  end.

Lemma py_mul_raises :
  forall a b e, py_mul a b = Raise e -> operand_unset a b e.
Proof. arith_raises. Qed.

Lemma py_add_raises :
  forall a b e, py_add a b = Raise e -> operand_unset a b e.
Proof. arith_raises. Qed.

Lemma py_sub_raises :
  forall a b e, py_sub a b = Raise e -> operand_unset a b e.
Proof. arith_raises. Qed.

Ltac arith_value :=
  intros a b v; destruct a as [|x|f], b as [|y|g]; cbn;
  try discriminate; try (intros [= <-]; discriminate);
  match goal with
  | |- context [Float.of_int ?z] =>
      destruct (Float.of_int z); cbn; [intros [= <-]|]; discriminate
  end.

Lemma py_mul_value : forall a b v, py_mul a b = Ok v -> v <> NNone.
Proof. arith_value. Qed.

Lemma py_add_value : forall a b v, py_add a b = Ok v -> v <> NNone.
Proof. arith_value. Qed.

Lemma py_sub_value : forall a b v, py_sub a b = Ok v -> v <> NNone.
Proof. arith_value. Qed.

Lemma py_add_None_r a : py_add a NNone = Raise TypeError.
Proof. now destruct a. Qed.

Lemma IntProp_get_unset p o : IntProp_get p o = NNone -> values p o = None.
Proof. unfold IntProp_get. now destruct (values p o). Qed.

Lemma operand_prices o a b e :
  operand_unset a b e ->
  (a = NNone -> list_price o = None \/ start_cost o = None) ->
  (b = NNone -> list_price o = None \/ start_cost o = None) ->
  (e = TypeError /\ (list_price o = None \/ start_cost o = None))
  \/ e = OverflowError.
Proof. intros [[-> [H | H]] | ->] Ha Hb; auto. Qed.

(** One step of a computation made of arithmetic. *)
Ltac arith_step :=
  match goal with
  | |- context [bindM (lift ?r) _ _] =>
      let E := fresh "E" in
      destruct r eqn:E;
      [rewrite bindM_lift_Ok|rewrite bindM_lift_Raise]
  | |- context [lift ?r ?w] =>
      let E := fresh "E" in
      change (lift r w) with (r, w); destruct r eqn:E
  end.

(** The exception of a step that failed comes from a price that is not
    set, or is an overflow. *)
Ltac prices_or_overflow o :=
  repeat arith_step; cbn; try discriminate; intros [= <-];
  match goal with
  | H : _ = Raise _ |- _ =>
      first [apply py_mul_raises in H|apply py_add_raises in H
            |apply py_sub_raises in H];
      apply (operand_prices o H); try discriminate; auto
  end;
  intros ->;
  match goal with
  | H : _ = Ok NNone |- _ =>
      first [apply py_mul_value in H|apply py_add_value in H
            |apply py_sub_value in H]; now contradiction H
  end.

(** A step on a price that is not set fails. *)
Ltac unset_fails :=
  repeat arith_step; cbn; eauto; exfalso;
  repeat match goal with
         | H : context [py_add _ NNone] |- _ => rewrite py_add_None_r in H
         end;
  cbn in *; discriminate.

Ltac last_step_value :=
  repeat arith_step; cbn; try discriminate; intros [= <-];
  match goal with
  | H : _ = Ok ?v |- ?v <> NNone =>
      first [eapply py_add_value; exact H|eapply py_mul_value; exact H]
  end.

(** ** [Offer.year_cost]: failures and edges *)

Section YearCostMore.

Context {db : UnicodeDB}.

Lemma search_reduced_group s r :
  re_search reduced_re s = Some r ->
  group 1 r <> [] /\ all_digits (group 1 r).
Proof.
  intros H. apply search_from_sound in H as (prev & s' & H).
  apply match_here_sound in H as (w & st' & Hs & ->).
  unfold reduced_re, wordI, lit in Hs. cbn in Hs. inv_steps;
    repeat match goal with
    | H : rsteps (Plus Digit) _ _ _ |- _ =>
        apply plus_digit_inv in H as (? & ? & ?)
    end; unfold group; cbn in *;
    repeat match goal with H : ms_groups _ = _ |- _ => rewrite H end;
    cbn; auto.
Qed.

Lemma py_int_reduced c r :
  re_search reduced_re c = Some r ->
  py_int (VStr (group 1 r)) = Ok (digits_value (group 1 r)).
Proof.
  intros H. apply search_reduced_group in H as [Hne Hd].
  cbn. now rewrite (int_of_digits Hne Hd).
Qed.

Lemma word_token_no_int g :
  months_token g -> length g = 3 -> int_of_str g = None.
Proof.
  intros Hg Hl. destruct Hg as [d Hd|d1 d2 H1 H2|a b c Ha Hb Hc];
    try discriminate.
  destruct (int_of_str [a; b; c]) as [v|] eqn:E; [|reflexivity].
  apply int_of_str_has_digit in E as (x & Hin & Hx).
  assert (is_digit x = false); [|congruence].
  destruct Hin as [<-|[<-|[<-|[]]]];
    eapply lower_not_digit; eauto; reflexivity.
Qed.

Lemma digits_token_int g :
  months_token g -> int_of_str g = None -> length g = 3.
Proof.
  intros Hg Hn. destruct Hg as [d Hd|d1 d2 H1 H2|a b c Ha Hb Hc].
  - rewrite int_of_digits in Hn;
      [discriminate|discriminate|now repeat constructor].
  - rewrite int_of_digits in Hn;
      [discriminate|discriminate|now repeat constructor].
  - reflexivity.
Qed.

Lemma full_price_raises w e :
  fst (full_price w) = Raise e ->
  e = TypeError
  /\ (list_price (self w) = None \/ start_cost (self w) = None).
Proof.
  unfold full_price. rewrite bindM_get_self. unfold IntProp_get. cbn [values].
  destruct (list_price (self w)) as [lp|]; [|intros [= <-]; auto].
  destruct (start_cost (self w)) as [sc|]; [discriminate|].
  intros [= <-]; auto.
Qed.

Lemma full_price_unset w :
  list_price (self w) = None \/ start_cost (self w) = None ->
  full_price w = (Raise TypeError, w).
Proof.
  unfold full_price. rewrite bindM_get_self. unfold IntProp_get. cbn [values].
  intros [H|H]; rewrite H; [reflexivity|].
  now destruct (list_price (self w)).
Qed.

Lemma full_price_value w v : fst (full_price w) = Ok v -> v <> NNone.
Proof. unfold full_price. rewrite bindM_get_self. last_step_value. Qed.

Lemma full_price_same_prices w w' :
  list_price (self w) = list_price (self w') ->
  start_cost (self w) = start_cost (self w') ->
  fst (full_price w) = fst (full_price w').
Proof.
  unfold full_price. rewrite !bindM_get_self. unfold IntProp_get.
  cbn [values]. intros -> ->.
  destruct (list_price (self w')); [|reflexivity].
  now destruct (start_cost (self w')).
Qed.

Lemma discounted_raises c months w e :
  fst (discounted c months w) = Raise e ->
  (e = TypeError
   /\ (list_price (self w) = None \/ start_cost (self w) = None))
  \/ e = OverflowError.
Proof.
  assert (Hlp : IntProp_get P_list_price (self w) = NNone ->
                list_price (self w) = None \/ start_cost (self w) = None).
  { intros H. left. now apply IntProp_get_unset in H. }
  assert (Hsc : IntProp_get P_start_cost (self w) = NNone ->
                list_price (self w) = None \/ start_cost (self w) = None).
  { intros H. right. now apply IntProp_get_unset in H. }
  unfold discounted.
  destruct (re_search reduced_re c) as [r|] eqn:Er.
  - rewrite (py_int_reduced _ Er), bindM_lift_Ok.
    destruct (digits_value (group 1 r) =? 0)%Z; rewrite bindM_get_self;
      prices_or_overflow (self w).
  - rewrite bindM_get_self. prices_or_overflow (self w).
Qed.

Lemma discounted_unset c months w :
  list_price (self w) = None \/ start_cost (self w) = None ->
  exists e, fst (discounted c months w) = Raise e.
Proof.
  intros H. unfold discounted.
  destruct (re_search reduced_re c) as [r|] eqn:Er.
  - rewrite (py_int_reduced _ Er), bindM_lift_Ok.
    destruct (digits_value (group 1 r) =? 0)%Z; rewrite bindM_get_self;
      unfold IntProp_get; cbn [values]; destruct H as [H|H]; rewrite H;
      unset_fails.
  - rewrite bindM_get_self. unfold IntProp_get. cbn [values].
    destruct H as [H|H]; rewrite H; unset_fails.
Qed.

Lemma discounted_value c months w v :
  fst (discounted c months w) = Ok v -> v <> NNone.
Proof.
  unfold discounted.
  destruct (re_search reduced_re c) as [r|] eqn:Er.
  - rewrite (py_int_reduced _ Er), bindM_lift_Ok.
    destruct (digits_value (group 1 r) =? 0)%Z; rewrite bindM_get_self;
      last_step_value.
  - rewrite bindM_get_self. last_step_value.
Qed.

Lemma year_cost_unresolved_unfold (o : Offer) (c : pystr) :
  campaign o = Some c ->
  unresolved c ->
  year_cost o
  = match Offer_str o with
    | Ok s =>
        full_price {| self := set_campaign (failure_marker ++ c) o;
                      stdout := [s ++ lit " Unhandled campaign: " ++ c] |}
    | Raise e => (Raise e, {| self := o; stdout := [] |})
    end.
Proof.
  intros Hc (Hne & Hm & Hin). rewrite year_cost_unfold, Hc. cbv zeta.
  destruct c as [|c0 c]; [congruence|]. now rewrite Hm, Hin.
Qed.

(** X1. An empty campaign text is no campaign: with the list price and
    the start cost set, [year_cost] returns
    [start_cost + list_price * 12], prints nothing and does not put the
    failure marker in front of the text. *)
Theorem year_cost_empty_campaign (o : Offer) (lp sc : Z) :
  campaign o = Some [] ->
  list_price o = Some lp ->
  start_cost o = Some sc ->
  year_cost o = (Ok (NInt (sc + lp * 12)), {| self := o; stdout := [] |}).
Proof.
  intros Hc Hlp Hsc. rewrite year_cost_unfold, Hc. cbv zeta.
  now apply full_price_eval.
Qed.

(** X2. When the duration token the pattern finds has three characters
    and is not the lower-case ["tre"] (the pattern ignores case, the
    comparison on line 59 does not), [year_cost] raises the [ValueError]
    of [int] on that token; the offer is left as it was and nothing is
    printed. *)
Theorem year_cost_word_not_lower_case (o : Offer) (c : pystr) (m : mstate) :
  campaign o = Some c ->
  re_search months_re c = Some m ->
  length (group 1 m) = 3 ->
  group 1 m <> lit "tre" ->
  year_cost o
  = (Raise (ValueError_int (VStr (group 1 m))), {| self := o; stdout := [] |}).
Proof.
  intros Hc Hm Hl Hne. rewrite year_cost_unfold, Hc. cbv zeta.
  destruct c as [|c0 c]; [discriminate|]. rewrite Hm.
  destruct (str_eqb (group 1 m) (lit "tre")) eqn:E.
  - apply str_eqb_eq in E. contradiction.
  - rewrite word_token_no_int; [reflexivity| |assumption].
    eapply search_months_group; eauto.
Qed.

Lemma year_cost_raises_cases (o : Offer) (e : exn) :
  fst (year_cost o) = Raise e ->
  (e = TypeError
   /\ (list_price o = None \/ start_cost o = None \/ isp o = None))
  \/ e = OverflowError
  \/ exists c m,
       campaign o = Some c /\ re_search months_re c = Some m
       /\ length (group 1 m) = 3 /\ group 1 m <> lit "tre"
       /\ e = ValueError_int (VStr (group 1 m)).
Proof.
  assert (D : forall c months,
             fst (discounted c months {| self := o; stdout := [] |})
             = Raise e ->
             (e = TypeError
              /\ (list_price o = None \/ start_cost o = None \/ isp o = None))
             \/ e = OverflowError
             \/ exists c m,
                  campaign o = Some c /\ re_search months_re c = Some m
                  /\ length (group 1 m) = 3 /\ group 1 m <> lit "tre"
                  /\ e = ValueError_int (VStr (group 1 m))).
  { intros c months H. apply discounted_raises in H as [[-> H]| ->]; auto.
    left. split; [reflexivity|]. cbn in H. tauto. }
  assert (F : forall w,
             list_price (self w) = list_price o ->
             start_cost (self w) = start_cost o ->
             fst (full_price w) = Raise e ->
             (e = TypeError
              /\ (list_price o = None \/ start_cost o = None \/ isp o = None))
             \/ e = OverflowError
             \/ exists c m,
                  campaign o = Some c /\ re_search months_re c = Some m
                  /\ length (group 1 m) = 3 /\ group 1 m <> lit "tre"
                  /\ e = ValueError_int (VStr (group 1 m))).
  { intros w Hlp Hsc H. apply full_price_raises in H as [-> H].
    rewrite Hlp, Hsc in H. left. split; [reflexivity|tauto]. }
  rewrite year_cost_unfold. cbv zeta.
  destruct (campaign o) as [[|c0 c]|] eqn:Hc; try (now apply F).
  destruct (re_search months_re (c0 :: c)) as [m|] eqn:Hm.
  - destruct (str_eqb (group 1 m) (lit "tre")) eqn:Et; [apply D|].
    destruct (int_of_str (group 1 m)) eqn:Ei; [apply D|].
    intros [= <-]. right. right. exists (c0 :: c), m.
    repeat split; auto.
    + apply digits_token_int; [|assumption].
      eapply search_months_group; eauto.
    + intros Heq. rewrite Heq in Et. vm_compute in Et. discriminate.
  - destruct (str_in (lit "ett halvår") (c0 :: c)); [apply D|].
    unfold Offer_str. destruct (isp o) as [i|] eqn:Hi.
    + now apply F.
    + intros [= <-]. left. auto.
Qed.


(** X4. Without a list price or without a start cost [year_cost] returns
    no value, whatever the campaign: every path ends in an exception. *)
Theorem year_cost_unset_price_raises (o : Offer) :
  list_price o = None \/ start_cost o = None ->
  exists e, fst (year_cost o) = Raise e.
Proof.
  intros H.
  assert (D : forall c months,
             exists e,
               fst (discounted c months {| self := o; stdout := [] |})
               = Raise e).
  { intros c months. now apply discounted_unset. }
  assert (F : forall w,
             list_price (self w) = list_price o ->
             start_cost (self w) = start_cost o ->
             exists e, fst (full_price w) = Raise e).
  { intros w Hlp Hsc. exists TypeError. rewrite full_price_unset;
      [reflexivity|]. now rewrite Hlp, Hsc. }
  rewrite year_cost_unfold. cbv zeta.
  destruct (campaign o) as [[|c0 c]|] eqn:Hc; try (now apply F).
  destruct (re_search months_re (c0 :: c)) as [m|] eqn:Hm.
  - destruct (str_eqb (group 1 m) (lit "tre")); [apply D|].
    destruct (int_of_str (group 1 m)); [apply D|eexists; reflexivity].
  - destruct (str_in (lit "ett halvår") (c0 :: c)); [apply D|].
    destruct (Offer_str o); [now apply F|eexists; reflexivity].
Qed.

(** X5. An unresolved campaign of an offer without provider: the
    diagnostic line cannot be built, [year_cost] raises [TypeError] even
    with both prices set, and it does so before it prints or marks the
    campaign. *)
Theorem year_cost_unresolved_without_isp (o : Offer) (c : pystr) :
  campaign o = Some c ->
  unresolved c ->
  isp o = None ->
  year_cost o = (Raise TypeError, {| self := o; stdout := [] |}).
Proof.
  intros Hc Hu Hi. rewrite (year_cost_unresolved_unfold _ Hc Hu).
  unfold Offer_str. now rewrite Hi.
Qed.

(** X6. An unresolved campaign of an offer with a provider but without a
    list price or a start cost: [year_cost] raises [TypeError] after it
    has printed the diagnostic line and put the failure marker in front
    of the campaign, so that the failed reading has changed the offer. *)
Theorem year_cost_fails_after_marking (o : Offer) (c i : pystr) :
  campaign o = Some c ->
  unresolved c ->
  isp o = Some i ->
  list_price o = None \/ start_cost o = None ->
  exists s,
    Offer_str o = Ok s
    /\ year_cost o
       = (Raise TypeError,
          {| self := set_campaign (failure_marker ++ c) o;
             stdout := [s ++ lit " Unhandled campaign: " ++ c] |}).
Proof.
  intros Hc Hu Hi H. rewrite (year_cost_unresolved_unfold _ Hc Hu).
  unfold Offer_str. rewrite Hi. eexists. split; [reflexivity|].
  now apply full_price_unset.
Qed.

(** X7. Reading [year_cost] a second time gives the value, or the
    exception, of the first reading, for every offer: the marker the
    first reading may have put in front of the campaign does not change
    the outcome. *)
Theorem year_cost_read_twice (o : Offer) :
  fst (year_cost (self (snd (year_cost o)))) = fst (year_cost o).
Proof.
  destruct (year_cost_world o) as [E|(c & s & Hc & Hu & Hs & E)];
    rewrite E; cbn [self]; [reflexivity|].
  rewrite (year_cost_unresolved_unfold o Hc Hu), Hs.
  rewrite (@year_cost_unresolved_unfold
             (set_campaign (failure_marker ++ c) o) (failure_marker ++ c)
             eq_refl (unresolved_marker Hu)).
  change (Offer_str (set_campaign (failure_marker ++ c) o))
    with (Offer_str o).
  rewrite Hs. now apply full_price_same_prices.
Qed.

(** X8. [year_cost] never returns [None]: what it returns is an integer
    or a float. *)
Theorem year_cost_returns_number (o : Offer) :
  fst (year_cost o) <> Ok NNone.
Proof.
  assert (D : forall c months w, fst (discounted c months w) <> Ok NNone).
  { intros c months w H. now apply discounted_value in H. }
  assert (F : forall w, fst (full_price w) <> Ok NNone).
  { intros w H. now apply full_price_value in H. }
  rewrite year_cost_unfold. cbv zeta.
  destruct (campaign o) as [[|c0 c]|]; try apply F.
  destruct (re_search months_re (c0 :: c)) as [m|].
  - destruct (str_eqb (group 1 m) (lit "tre")); [apply D|].
    destruct (int_of_str (group 1 m)); [apply D|discriminate].
  - destruct (str_in (lit "ett halvår") (c0 :: c)); [apply D|].
    destruct (Offer_str o); [apply F|discriminate].
Qed.

(** X9. The duration [year_cost] reads off a matched token lies between
    0 and 99. *)
Theorem duration_between_0_and_99 (c : pystr) (m : mstate) (mo : Z) :
  re_search months_re c = Some m ->
  duration_of (group 1 m) = Some mo ->
  (0 <= mo <= 99)%Z.
Proof.
  intros Hm Hd. eapply duration_range; [|exact Hd].
  eapply search_months_group; eauto.
Qed.

End YearCostMore.

(** ** [parse_page]: one offer for each element *)

Section ParsePageMore.

Context {db : UnicodeDB}.

Lemma parse_loop_Forall2 doc acc offers :
  parse_loop doc acc = Ok offers
  <-> exists news,
        offers = acc ++ news
        /\ Forall2 (fun a o => parse_offer a = Ok o) doc news.
Proof.
  revert acc offers. induction doc as [|a doc IH]; intros acc offers; cbn.
  - split.
    + intros [= <-]. exists []. split; [now rewrite app_nil_r|constructor].
    + intros (news & -> & H). inversion H. now rewrite app_nil_r.
  - destruct (parse_offer a) as [o|e] eqn:E; cbn.
    + rewrite IH. split.
      * intros (news & -> & H). exists (o :: news).
        split; [now rewrite <- app_assoc|now constructor].
      * intros (news & -> & H). inversion H as [|a' o' doc' news' Ho H'].
        subst. exists news'. split; [|assumption].
        rewrite <- app_assoc. cbn. congruence.
    + split; [discriminate|].
      intros (news & _ & H). inversion H. congruence.
Qed.

(** X10. [parse_page] returns a list exactly when every offer element can
    be extracted, and the list then holds the offer of each element, one
    for one and in document order; the offer of an element depends on
    that element alone. *)
Theorem parse_page_one_for_one (doc : list article) (offers : list Offer) :
  parse_page doc = Ok offers
  <-> Forall2 (fun a o => parse_offer a = Ok o) doc offers.
Proof.
  unfold parse_page. rewrite parse_loop_Forall2. cbn. split.
  - now intros (news & -> & H).
  - intros H. now exists offers.
Qed.

(** X11. The first element that cannot be extracted decides: when the
    elements before it can, [parse_page] raises the exception of that
    element, whatever follows it, and returns none of the offers. *)
Theorem parse_page_first_failure
        (pre post : list article) (a : article) (offers : list Offer)
        (e : exn) :
  Forall2 (fun a o => parse_offer a = Ok o) pre offers ->
  parse_offer a = Raise e ->
  parse_page (pre ++ a :: post) = Raise e.
Proof.
  intros Hpre Ha. unfold parse_page. rewrite parse_loop_app.
  assert (E : parse_loop pre [] = Ok offers).
  { apply parse_loop_Forall2. now exists offers. }
  rewrite E. cbn. now rewrite Ha.
Qed.

Lemma index_raises A (l : list A) i e :
  index l i = Raise e -> e = IndexError.
Proof.
  unfold index. destruct (nth_error l i); [discriminate|].
  now intros [= <-].
Qed.

Lemma getitem_raises d key e : getitem d key = Raise e -> e = KeyError key.
Proof.
  induction d as [|[k v] d IH]; cbn; [now intros [= <-]|].
  destruct (str_eqb k key); [discriminate|exact IH].
Qed.

Lemma IntProp_set_str_raises p o s e :
  IntProp_set p o (VStr s) = Raise e -> e = ValueError_int (VStr s).
Proof.
  intros H. apply IntProp_set_Raise in H. cbn in H.
  destruct (int_of_str s); [discriminate|]. now injection H as <-.
Qed.

(** *** The speeds *)







Lemma speed_pair_sets o m s :
  re_search speed_re s = Some m ->
  (o0 <- IntProp_set P_speed_down o (VStr (group 1 m)) ;;
   IntProp_set P_speed_up o0 (VStr (group 2 m)))%py
  = Ok (store P_speed_up (digits_value (group 2 m))
          (store P_speed_down (digits_value (group 1 m)) o)).
Proof.
  intros Hm. apply search_speed_groups in Hm as [[? ?] [? ?]].
  rewrite IntProp_set_digits by assumption. cbn [bind].
  now rewrite IntProp_set_digits by assumption.
Qed.

Lemma speed_single_sets o m s :
  re_search digits_re s = Some m ->
  (o0 <- IntProp_set P_speed_up o (VStr (group 0 m)) ;;
   IntProp_set P_speed_down o0 (VStr (group 0 m)))%py
  = Ok (store P_speed_down (digits_value (group 0 m))
          (store P_speed_up (digits_value (group 0 m)) o)).
Proof.
  intros Hm. apply search_digits_group in Hm as [? ?].
  rewrite IntProp_set_digits by assumption. cbn [bind].
  now rewrite IntProp_set_digits by assumption.
Qed.

(** What [resolve_speed] does, by the three searches. *)
Lemma resolve_speed_cases o nm bn :
  name o = Some nm -> banner o = Some bn ->
  resolve_speed o
  = match re_search speed_re nm with
    | Some m =>
        Ok (store P_speed_up (digits_value (group 2 m))
              (store P_speed_down (digits_value (group 1 m)) o))
    | None =>
        match re_search speed_re bn with
        | Some m =>
            Ok (store P_speed_up (digits_value (group 2 m))
                  (store P_speed_down (digits_value (group 1 m)) o))
        | None =>
            match re_search digits_re bn with
            | Some m =>
                Ok (store P_speed_down (digits_value (group 0 m))
                      (store P_speed_up (digits_value (group 0 m)) o))
            | None => Raise AttributeError
            end
        end
    end.
Proof.
  intros Hn Hb. unfold resolve_speed. rewrite Hn, Hb.
  cbn [search_attr bind].
  destruct (re_search speed_re nm) as [m|] eqn:E1; cbn [bind].
  - eapply speed_pair_sets; eauto.
  - destruct (re_search speed_re bn) as [m|] eqn:E2; cbn [bind].
    + eapply speed_pair_sets; eauto.
    + destruct (re_search digits_re bn) as [m|] eqn:E3.
      * eapply speed_single_sets; eauto.
      * reflexivity.
Qed.


(** X13. The speeds [resolve_speed] assigns are not negative. *)
Theorem resolve_speed_not_negative (o o' : Offer) (nm bn : pystr) :
  name o = Some nm ->
  banner o = Some bn ->
  resolve_speed o = Ok o' ->
  exists up down,
    speed_up o' = Some up /\ speed_down o' = Some down
    /\ (0 <= up)%Z /\ (0 <= down)%Z.
Proof.
  intros Hn Hb. rewrite (resolve_speed_cases _ Hn Hb).
  destruct (re_search speed_re nm) as [m|];
    [|destruct (re_search speed_re bn) as [m|];
      [|destruct (re_search digits_re bn) as [m|]; [|discriminate]]];
    intros [= <-]; do 2 eexists; cbn;
    repeat split; apply digits_value_nonneg.
Qed.

(** *** The attributes of an extracted offer *)

Lemma parse_head_fields a o :
  parse_head a = Ok o ->
  name o <> None /\ banner o <> None /\ isp o <> None
  /\ list_price o <> None /\ speed_up o <> None /\ speed_down o <> None
  /\ (if list_in (lit "campaign") (classes a)
      then campaign o <> None else campaign o = None).
Proof.
  unfold parse_head. intros H. ok_split H.
  match goal with
  | E : resolve_speed (set_isp _ (set_name ?n (set_banner ?b _))) = Ok _
    |- _ =>
      rewrite resolve_speed_cases with (nm := n) (bn := b) in E
        by reflexivity;
      repeat match type of E with
             | match ?x with _ => _ end = _ => destruct x
             end; try discriminate; injection E as <-
  end;
    match goal with
    | E : IntProp_set _ _ _ = Ok _ |- _ =>
        apply IntProp_set_Ok in E as (? & _ & ->)
    end;
    destruct (list_in (lit "campaign") (classes a));
    ok_split H; injection H as <-; cbn; repeat split; discriminate.
Qed.

Lemma read_conditions_fields a o o' :
  read_conditions a o = Ok o' ->
  start_cost o' <> None /\ bind_time o' <> None /\ leave_time o' <> None
  /\ list_price o' = list_price o /\ campaign o' = campaign o.
Proof.
  unfold read_conditions. intros H. ok_split H.
  match type of H with
  | match ?x with _ => _ end = _ =>
      destruct x as [|s [|b [|l [|y lines]]]]; try discriminate
  end.
  ok_split H. injection H as <-.
  match goal with
  | E : IntProp_set _ _ _ = Ok _ |- _ =>
      apply IntProp_set_Ok in E as (? & _ & ->)
  end. cbn. repeat split; discriminate.
Qed.

Lemma parse_offer_fields a o :
  parse_offer a = Ok o ->
  populated o
  /\ (if list_in (lit "campaign") (classes a)
      then campaign o <> None else campaign o = None).
Proof.
  unfold parse_offer. intros H. ok_split H.
  match goal with
  | E : parse_head _ = Ok _ |- _ =>
      apply parse_head_fields in E as (Hn & Hb & Hi & Hlp & Hu & Hd & Hc)
  end.
  pose proof (read_conditions_keeps _ _ H) as (Kn & Kb & Ki & Ku & Kd).
  apply read_conditions_fields in H as (Hsc & Hbt & Hlt & Klp & Kc).
  unfold populated. rewrite Kn, Kb, Ki, Ku, Kd, Klp, Kc.
  repeat split; assumption.
Qed.

(** X14. In every offer [parse_page] returns, the name, the banner, the
    provider, the bind time, the leave time, the list price, both speeds
    and the start cost are set; the campaign is set exactly for the
    elements of class [campaign]. *)
Theorem parse_page_populated (doc : list article) (offers : list Offer) :
  parse_page doc = Ok offers ->
  Forall2 (fun a o =>
             populated o
             /\ (campaign o <> None
                 <-> list_in (lit "campaign") (classes a) = true))
          doc offers.
Proof.
  unfold parse_page. rewrite parse_loop_Forall2.
  intros (news & -> & H). cbn [app].
  induction H as [|a o doc news Ho H IH]; constructor; [|exact IH].
  apply parse_offer_fields in Ho as [Hp Hc]. split; [exact Hp|].
  destruct (list_in (lit "campaign") (classes a)).
  - split; auto.
  - split; [contradiction|discriminate].
Qed.

(** *** The exceptions of the extraction *)

Lemma resolve_speed_raises_attribute o nm bn e :
  name o = Some nm -> banner o = Some bn ->
  resolve_speed o = Raise e -> e = AttributeError.
Proof.
  intros Hn Hb. rewrite (resolve_speed_cases _ Hn Hb).
  repeat match goal with
         | |- match ?x with _ => _ end = _ -> _ => destruct x
         end; try discriminate.
  now intros [= <-].
Qed.

Ltac parse_exception_step :=
  match goal with
  | H : index _ _ = Raise _ |- _ =>
      apply index_raises in H; subst; left; reflexivity
  | H : isp_of_href _ = Raise _ |- _ =>
      apply index_raises in H; subst; left; reflexivity
  | H : getitem _ _ = Raise _ |- _ =>
      apply getitem_raises in H; subst; right; left; reflexivity
  | H : IntProp_set _ _ (VStr _) = Raise _ |- _ =>
      apply IntProp_set_str_raises in H; subst;
      right; right; right; left; eexists; reflexivity
  | H : resolve_speed _ = Raise _ |- _ =>
      eapply resolve_speed_raises_attribute in H;
      [subst; right; right; left; reflexivity
      |reflexivity|reflexivity]
  end.

Lemma parse_head_raises a e : parse_head a = Raise e -> parse_exception e.
Proof.
  unfold parse_head, parse_exception. intros H.
  raise_split H; try parse_exception_step.
  destruct (list_in (lit "campaign") (classes a)); [|discriminate].
  raise_split H; try parse_exception_step. discriminate.
Qed.

Lemma read_conditions_raises a o e :
  read_conditions a o = Raise e -> parse_exception e.
Proof.
  unfold read_conditions, parse_exception. intros H.
  raise_split H; try parse_exception_step.
  match type of H with
  | match ?x with _ => _ end = _ =>
      destruct x as [|s [|b [|l [|y lines]]]]
  end;
    try (injection H as <-; right; right; right; right;
         eexists; split; [|reflexivity]; cbn; lia).
  raise_split H; try parse_exception_step. discriminate.
Qed.

Lemma parse_offer_raises a e : parse_offer a = Raise e -> parse_exception e.
Proof.
  unfold parse_offer. intros H. raise_split H.
  - eapply parse_head_raises; eauto.
  - eapply read_conditions_raises; eauto.
Qed.

(** X15. The exceptions of [parse_page]: an [IndexError], the [KeyError]
    of a link without [href], the [AttributeError] of a speed that is not
    found, the [ValueError] of [int] on a text, or the [ValueError] of a
    conditions block that has not three lines.  It raises no [TypeError]
    and no [OverflowError]. *)
Theorem parse_page_exceptions (doc : list article) (e : exn) :
  parse_page doc = Raise e -> parse_exception e.
Proof.
  unfold parse_page. generalize (@nil Offer).
  induction doc as [|a doc IH]; intros acc; cbn; [discriminate|].
  destruct (parse_offer a) as [o|e'] eqn:E; cbn; [apply IH|].
  intros [= <-]. now apply parse_offer_raises in E.
Qed.

(** *** The provider *)

Lemma length_split_on sep s :
  length (split_on sep s) = S (count_char sep s).
Proof.
  unfold count_char. induction s as [|c s IH]; cbn; [reflexivity|].
  destruct (char_eqb c sep); cbn; [now rewrite IH|].
  destruct (split_on sep s); cbn in *; [discriminate|exact IH].
Qed.

Lemma split_on_no_sep sep s :
  Forall (Forall (fun c => c <> sep)) (split_on sep s).
Proof.
  induction s as [|c s IH]; cbn; [repeat constructor|].
  destruct (char_eqb c sep) eqn:E; [now constructor|].
  assert (Hc : c <> sep).
  { intros ->. unfold char_eqb in E. now rewrite N.eqb_refl in E. }
  destruct (split_on sep s) as [|h t]; [repeat constructor; exact Hc|].
  inversion IH; subst. constructor; [now constructor|assumption].
Qed.

(** X16. The provider is read off only when the link holds at least
    three ['/']: with fewer, [isp_of_href] raises [IndexError]; with three
    or more it returns a segment, and the segment holds no ['/']. *)
Theorem isp_of_href_slashes (href : pystr) :
  (count_char SLASH href < 3 -> isp_of_href href = Raise IndexError)
  /\ (3 <= count_char SLASH href ->
      exists seg, isp_of_href href = Ok seg /\ no_slash seg).
Proof.
  unfold isp_of_href, index.
  pose proof (length_split_on SLASH href) as Hl. split; intros H.
  - assert (E : nth_error (split_on SLASH href) 3 = None)
      by (apply nth_error_None; lia).
    now rewrite E.
  - destruct (nth_error (split_on SLASH href) 3) as [seg|] eqn:E.
    + exists seg. split; [reflexivity|].
      apply nth_error_In in E.
      pose proof (split_on_no_sep SLASH href) as Hf.
      rewrite Forall_forall in Hf. now apply Hf.
    + apply nth_error_None in E. lia.
Qed.

Lemma getitem_missing d key :
  (forall k v, In (k, v) d -> k <> key) -> getitem d key = Raise (KeyError key).
Proof.
  induction d as [|[k v] d IH]; intros H; cbn; [reflexivity|].
  destruct (str_eqb k key) eqn:E.
  - apply str_eqb_eq in E. exfalso. eapply H; [left; reflexivity|exact E].
  - apply IH. intros k' v' Hin. eapply H. right. exact Hin.
Qed.

(** X17. An offer element whose provider link has no [href] attribute
    makes the extraction raise [KeyError] for that key; the banner and
    the name have been read by then. *)
Theorem parse_offer_without_href (a : article) (tb tn tl : tag) :
  nth_error (sel_banner a) 0 = Some tb ->
  nth_error (sel_product_name a) 0 = Some tn ->
  nth_error (sel_isp_link a) 0 = Some tl ->
  (forall k v, In (k, v) (attrs tl) -> k <> lit "href") ->
  parse_offer a = Raise (KeyError (lit "href")).
Proof.
  intros Hb Hn Hl Hk. unfold parse_offer, parse_head, index.
  rewrite Hb, Hn, Hl. cbn [bind].
  now rewrite (getitem_missing _ Hk).
Qed.

(** *** Extraction and cost together *)

Lemma parsed_offer_full_price (a : article) (o : Offer) :
  parse_offer a = Ok o ->
  list_in (lit "campaign") (classes a) = false ->
  exists lp sc,
    list_price o = Some lp /\ start_cost o = Some sc
    /\ year_cost o
       = (Ok (NInt (sc + lp * 12)), {| self := o; stdout := [] |}).
Proof.
  intros H Hn. apply parse_offer_fields in H as [Hp Hc].
  destruct Hp as (_ & _ & _ & _ & _ & Hlp & _ & _ & Hsc).
  rewrite Hn in Hc.
  destruct (list_price o) as [lp|] eqn:Elp; [|contradiction].
  destruct (start_cost o) as [sc|] eqn:Esc; [|contradiction].
  exists lp, sc. repeat split.
  rewrite year_cost_unfold, Hc. cbv zeta. now apply full_price_eval.
Qed.

(** X18. The first-year cost of an offer [parse_page] has extracted is
    never a [TypeError], since every attribute it reads is set; and for an
    element that is not of class [campaign] it is the integer
    [start_cost + list_price * 12], with nothing printed and the offer
    left as it was. *)
Theorem parsed_offer_year_cost (a : article) (o : Offer) :
  parse_offer a = Ok o ->
  fst (year_cost o) <> Raise TypeError
  /\ (list_in (lit "campaign") (classes a) = false ->
      exists lp sc,
        list_price o = Some lp /\ start_cost o = Some sc
        /\ year_cost o
           = (Ok (NInt (sc + lp * 12)), {| self := o; stdout := [] |})).
Proof.
  intros H. split; [|now apply parsed_offer_full_price].
  apply parse_offer_fields in H as [Hp Hc].
  destruct Hp as (_ & _ & Hi & _ & _ & Hlp & _ & _ & Hsc).
  intros H. apply year_cost_raises_cases in H
    as [[_ [H | [H | H]]] | [H | (c & m & _ & _ & _ & _ & H)]];
    try contradiction; discriminate.
Qed.

End ParsePageMore.

(** ** [write_xslx] *)

Section WriteXslxMore.

Context {db : UnicodeDB}.






























End WriteXslxMore.

(** ** [IntProp] *)

Section IntPropMore.

Context {db : UnicodeDB}.

(** X25. An assignment to one of the four integer fields that succeeds
    changes that field alone: reading it gives the integer [int] made of
    the value, and the other three fields and the six text attributes are
    as they were. *)
Theorem IntProp_set_frame (p : intprop) (o o' : Offer) (v : pyval) :
  IntProp_set p o v = Ok o' ->
  (exists z, py_int v = Ok z /\ IntProp_get p o' = NInt z)
  /\ (forall p', p' <> p -> IntProp_get p' o' = IntProp_get p' o)
  /\ name o' = name o /\ banner o' = banner o /\ isp o' = isp o
  /\ campaign o' = campaign o /\ bind_time o' = bind_time o
  /\ leave_time o' = leave_time o.
Proof.
  intros H. apply IntProp_set_Ok in H as (z & Hz & ->). split.
  - exists z. split; [exact Hz|]. now destruct p.
  - split; [|repeat split].
    intros p' Hp. destruct p, p'; try reflexivity; congruence.
Qed.

End IntPropMore.

(** ** The further properties on examples *)

Lemma year_cost_empty_campaign_witness :
  year_cost (example_offer (Some []) 299 500)
  = (Ok (NInt (500 + 299 * 12)),
     {| self := example_offer (Some []) 299 500; stdout := [] |}).
Proof.
  apply (@year_cost_empty_campaign latin1_db
           (example_offer (Some []) 299 500) 299 500); reflexivity.
Defined.

Lemma year_cost_word_not_lower_case_witness :
  exists m,
    re_search months_re (lit "Tre mån 199kr") = Some m
    /\ year_cost (example_offer (Some (lit "Tre mån 199kr")) 299 500)
       = (Raise (ValueError_int (VStr (group 1 m))),
          {| self := example_offer (Some (lit "Tre mån 199kr")) 299 500;
             stdout := [] |}).
Proof.
  eexists. split; [vm_compute; reflexivity|].
  apply (@year_cost_word_not_lower_case latin1_db
           (example_offer (Some (lit "Tre mån 199kr")) 299 500)
           (lit "Tre mån 199kr")).
  - reflexivity.
  - vm_compute. reflexivity.
  - vm_compute. reflexivity.
  - vm_compute. discriminate.
Defined.


Lemma year_cost_unset_price_raises_witness :
  exists e,
    fst (year_cost (offer_without_price (Some (lit "Halva priset i 3 mån"))))
    = Raise e.
Proof.
  apply (@year_cost_unset_price_raises latin1_db
           (offer_without_price (Some (lit "Halva priset i 3 mån")))).
  left. reflexivity.
Defined.

Lemma year_cost_unresolved_without_isp_witness :
  year_cost (offer_without_isp (Some (lit "Fri router")))
  = (Raise TypeError,
     {| self := offer_without_isp (Some (lit "Fri router")); stdout := [] |}).
Proof.
  apply (@year_cost_unresolved_without_isp latin1_db
           (offer_without_isp (Some (lit "Fri router"))) (lit "Fri router")).
  - reflexivity.
  - split; [vm_compute; discriminate|].
    split; vm_compute; reflexivity.
  - reflexivity.
Defined.

Lemma year_cost_fails_after_marking_witness :
  exists s,
    Offer_str (offer_without_price (Some (lit "Fri router"))) = Ok s
    /\ year_cost (offer_without_price (Some (lit "Fri router")))
       = (Raise TypeError,
          {| self := set_campaign (failure_marker ++ lit "Fri router")
                       (offer_without_price (Some (lit "Fri router")));
             stdout := [s ++ lit " Unhandled campaign: "
                          ++ lit "Fri router"] |}).
Proof.
  apply (@year_cost_fails_after_marking latin1_db
           (offer_without_price (Some (lit "Fri router")))
           (lit "Fri router") (lit "bahnhof")).
  - reflexivity.
  - split; [vm_compute; discriminate|].
    split; vm_compute; reflexivity.
  - reflexivity.
  - left. reflexivity.
Defined.

Lemma duration_between_0_and_99_witness : (0 <= 24 <= 99)%Z.
Proof.
  pose proof
    (fun m Hm Hd =>
       @duration_between_0_and_99 latin1_db
         (lit "Halva priset i 24 mån") m 24 Hm Hd) as W.
  eapply W.
  - vm_compute. reflexivity.
  - vm_compute. reflexivity.
Defined.

Lemma parse_page_first_failure_witness :
  parse_page ([example_campaign_article]
                ++ example_article bahnhof_href two_lines
                :: [example_article bahnhof_href three_lines])
  = Raise (ValueError_unpack 3 2).
Proof.
  pose proof
    (fun offers H =>
       @parse_page_first_failure latin1_db [example_campaign_article]
         [example_article bahnhof_href three_lines]
         (example_article bahnhof_href two_lines) offers
         (ValueError_unpack 3 2) H) as W.
  eapply W.
  - constructor; [vm_compute; reflexivity|constructor].
  - vm_compute. reflexivity.
Defined.


Lemma resolve_speed_not_negative_witness :
  exists up down,
    speed_up (store P_speed_up 10
                (store P_speed_down 100
                   (offer_with_texts (lit "100/10 Fiber") (lit "Bredband"))))
    = Some up
    /\ speed_down (store P_speed_up 10
                     (store P_speed_down 100
                        (offer_with_texts (lit "100/10 Fiber")
                                          (lit "Bredband"))))
       = Some down
    /\ (0 <= up)%Z /\ (0 <= down)%Z.
Proof.
  apply (@resolve_speed_not_negative latin1_db
           (offer_with_texts (lit "100/10 Fiber") (lit "Bredband"))
           (store P_speed_up 10
              (store P_speed_down 100
                 (offer_with_texts (lit "100/10 Fiber") (lit "Bredband"))))
           (lit "100/10 Fiber") (lit "Bredband")).
  - reflexivity.
  - reflexivity.
  - vm_compute. reflexivity.
Defined.

Lemma parse_page_populated_witness :
  exists offers,
    parse_page example_document = Ok offers
    /\ Forall2 (fun a o =>
                  populated o
                  /\ (campaign o <> None
                      <-> list_in (lit "campaign") (classes a) = true))
               example_document offers.
Proof.
  eexists. split; [vm_compute; reflexivity|].
  apply (@parse_page_populated latin1_db). vm_compute. reflexivity.
Defined.

Lemma parse_page_exceptions_witness : parse_exception (ValueError_unpack 3 2).
Proof.
  apply (@parse_page_exceptions latin1_db two_line_document).
  vm_compute. reflexivity.
Defined.

Lemma parse_offer_without_href_witness :
  parse_offer article_without_href = Raise (KeyError (lit "href")).
Proof.
  eapply (@parse_offer_without_href latin1_db article_without_href).
  - reflexivity.
  - reflexivity.
  - reflexivity.
  - intros k v [H|[]]. injection H as <- _. vm_compute. discriminate.
Defined.

Lemma parsed_offer_year_cost_witness :
  fst (year_cost example_parsed_offer) <> Raise TypeError
  /\ (list_in (lit "campaign")
              (classes (example_article bahnhof_href three_lines)) = false ->
      exists lp sc,
        list_price example_parsed_offer = Some lp
        /\ start_cost example_parsed_offer = Some sc
        /\ year_cost example_parsed_offer
           = (Ok (NInt (sc + lp * 12)),
              {| self := example_parsed_offer; stdout := [] |})).
Proof.
  apply (@parsed_offer_year_cost latin1_db
           (example_article bahnhof_href three_lines) example_parsed_offer).
  vm_compute. reflexivity.
Defined.








Lemma IntProp_set_frame_witness :
  (exists z, py_int (VStr (lit " 299 ")) = Ok z
             /\ IntProp_get P_list_price
                  (store P_list_price 299 (example_offer None 0 500))
                = NInt z)
  /\ (forall p', p' <> P_list_price ->
                 IntProp_get p'
                   (store P_list_price 299 (example_offer None 0 500))
                 = IntProp_get p' (example_offer None 0 500))
  /\ name (store P_list_price 299 (example_offer None 0 500))
     = name (example_offer None 0 500)
  /\ banner (store P_list_price 299 (example_offer None 0 500))
     = banner (example_offer None 0 500)
  /\ isp (store P_list_price 299 (example_offer None 0 500))
     = isp (example_offer None 0 500)
  /\ campaign (store P_list_price 299 (example_offer None 0 500))
     = campaign (example_offer None 0 500)
  /\ bind_time (store P_list_price 299 (example_offer None 0 500))
     = bind_time (example_offer None 0 500)
  /\ leave_time (store P_list_price 299 (example_offer None 0 500))
     = leave_time (example_offer None 0 500).
Proof.
  apply (@IntProp_set_frame latin1_db P_list_price
           (example_offer None 0 500)
           (store P_list_price 299 (example_offer None 0 500))
           (VStr (lit " 299 "))).
  vm_compute. reflexivity.
Defined.

(** ** The texts of an extracted offer *)

Section TrimmedTexts.

Context {db : UnicodeDB}.

Lemma drop_while_hd p s c :
  hd_error (drop_while p s) = Some c -> p c = false.
Proof.
  induction s as [|x s IH]; cbn; [discriminate|].
  destruct (p x) eqn:E; [exact IH|]. cbn. now intros [= <-].
Qed.

Lemma drop_while_suffix p s : exists pre, s = pre ++ drop_while p s.
Proof.
  induction s as [|x s [pre IH]]; cbn; [now exists []|].
  destruct (p x); [|now exists []].
  exists (x :: pre). cbn. now f_equal.
Qed.

Lemma hd_error_app_nonempty (a b : pystr) c :
  hd_error b = Some c -> hd_error (rev (a ++ b)) = hd_error (rev b).
Proof.
  intros Hb. rewrite rev_app_distr.
  destruct (rev b) as [|y r] eqn:E; [|reflexivity].
  apply (f_equal (@rev char)) in E. rewrite rev_involutive in E.
  subst b. discriminate.
Qed.

Lemma strip_trimmed s : trimmed (strip s).
Proof.
  unfold trimmed, strip. split; intros c H.
  - set (u := drop_while u_isspace s) in *.
    destruct (drop_while_suffix u_isspace (rev u)) as [pre Hpre].
    set (v := drop_while u_isspace (rev u)) in *.
    assert (Hv : exists y, hd_error v = Some y).
    { destruct v as [|y v']; [discriminate|]. now exists y. }
    destruct Hv as [y Hy].
    assert (E : hd_error (rev v) = hd_error u).
    { rewrite <- (hd_error_app_nonempty pre v Hy), <- Hpre.
      now rewrite rev_involutive. }
    rewrite E in H. now apply drop_while_hd in H.
  - rewrite rev_involutive in H. now apply drop_while_hd in H.
Qed.

Lemma parse_head_texts a o :
  parse_head a = Ok o ->
  (exists b, banner o = Some (strip b))
  /\ (campaign o = None \/ exists c, campaign o = Some (strip c)).
Proof.
  unfold parse_head. intros H. ok_split H.
  match goal with
  | E : resolve_speed (set_isp _ (set_name ?n (set_banner ?b _))) = Ok _
    |- _ =>
      rewrite resolve_speed_cases with (nm := n) (bn := b) in E
        by reflexivity;
      repeat match type of E with
             | match ?x with _ => _ end = _ => destruct x
             end; try discriminate; injection E as <-
  end;
    match goal with
    | E : IntProp_set _ _ _ = Ok _ |- _ =>
        apply IntProp_set_Ok in E as (? & _ & ->)
    end;
    destruct (list_in (lit "campaign") (classes a));
    ok_split H; injection H as <-; cbn; split; eauto.
Qed.

Lemma read_conditions_texts a o o' :
  read_conditions a o = Ok o' ->
  banner o' = banner o /\ campaign o' = campaign o
  /\ (exists b, bind_time o' = Some (strip b))
  /\ (exists l, leave_time o' = Some (strip l)).
Proof.
  unfold read_conditions. intros H. ok_split H.
  match type of H with
  | match ?x with _ => _ end = _ =>
      destruct x as [|s [|b [|l [|y lines]]]]; try discriminate
  end.
  ok_split H. injection H as <-.
  match goal with
  | E : IntProp_set _ _ _ = Ok _ |- _ =>
      apply IntProp_set_Ok in E as (? & _ & ->)
  end. cbn. repeat split; eauto.
Qed.

(** X26. The banner, the campaign, the bind time and the leave time of
    an extracted offer neither begin nor end with white space. *)
Theorem parse_offer_trimmed (a : article) (o : Offer) (t : pystr) :
  parse_offer a = Ok o ->
  banner o = Some t \/ campaign o = Some t
  \/ bind_time o = Some t \/ leave_time o = Some t ->
  trimmed t.
Proof.
  unfold parse_offer. intros H Ht. ok_split H.
  match goal with
  | E : parse_head _ = Ok _ |- _ =>
      apply parse_head_texts in E as ((b & Hb) & Hc)
  end.
  apply read_conditions_texts in H as (Kb & Kc & (bt & Hbt) & (lt & Hlt)).
  rewrite Kb, Kc, Hb, Hbt, Hlt in Ht.
  destruct Ht as [Ht | [Ht | [Ht | Ht]]];
    try (injection Ht as <-; apply strip_trimmed).
  destruct Hc as [Hc | (c & Hc)]; rewrite Hc in Ht; [discriminate|].
  injection Ht as <-. apply strip_trimmed.
Qed.

End TrimmedTexts.

Lemma parse_offer_trimmed_witness : trimmed (lit "Bredband 100 Mbit/s").
Proof.
  apply (@parse_offer_trimmed latin1_db
           (example_article bahnhof_href three_lines) example_parsed_offer).
  - vm_compute. reflexivity.
  - left. vm_compute. reflexivity.
Defined.
